(** * Bitbucket-to-Port synchronisation script ([app.py]): model and properties

    The script walks a cursor-paginated REST API (users, projects, repositories,
    pull requests), maps every object to an entity dictionary, posts it to a
    sink, and registers webhooks.  This development embeds the parts of
    [app.py] that its specification talks about:

    - the values the script manipulates are what [response.json()] returns, so
      they are modelled by a JSON tree ([json]); dictionaries keep insertion
      order and are association lists with unique keys;
    - Python exceptions are a datatype ([exn]) and fallible expressions live in
      [result];
    - the module-level mutable state ([request_count], [rate_limit_start]), the
      clock, the dictionaries that are shared by reference, and the traffic
      with the outside are fields of [world];
    - a generator function is a resumable state machine ([generator],
      [next]); consumers ([for ... in generator]) are fuel-bounded loops.

    Conventions on numbers: JSON numbers are integers (identifiers, cursors
    and epoch milliseconds are integer-valued in the consumed API) and the clock
    is counted in whole seconds; binary floating point is not modelled. *)

From Stdlib Require Import ZArith List String Ascii Bool Lia.
From Stdlib Require Import Numbers.DecimalString.
Import ListNotations.

Open Scope string_scope.
Open Scope list_scope.
Open Scope Z_scope.

(* ================================================================== *)
(** ** Python values, exceptions and the operations the script uses   *)
(* ================================================================== *)

#[warnings="-register-all"]
Inductive json : Type :=
| JNull
| JBool (b : bool)
| JNum (n : Z)
| JStr (s : string)
| JArr (items : list json)
| JObj (fields : list (string * json)).

(** A Python [dict] with string keys, in insertion order. *)
Definition dict : Type := list (string * json).

Inductive exn : Type :=
| HTTPError (status_code : Z)
| KeyError (key : json)
| IndexError
| TypeError
| AttributeError
| JSONDecodeError
| ConnectionError
| OutOfRange.        (* ValueError / OverflowError of [datetime] *)

Inductive result (A : Type) : Type :=
| Ok (a : A)
| Raise (e : exn).
Arguments Ok {A} a.
Arguments Raise {A} e.

Definition bind {A B : Type} (r : result A) (k : A -> result B) : result B :=
  match r with
  | Ok a => k a
  | Raise e => Raise e
  end.

Notation "x <- r ;; k" := (bind r (fun x => k))
  (at level 61, r at next level, right associativity).

Fixpoint mapM {A B : Type} (f : A -> result B) (l : list A) : result (list B) :=
  match l with
  | [] => Ok []
  | a :: l' => b <- f a ;; bs <- mapM f l' ;; Ok (b :: bs)
  end.

Fixpoint dict_get (k : string) (d : dict) : option json :=
  match d with
  | [] => None
  | (k', v) :: d' => if String.eqb k k' then Some v else dict_get k d'
  end.

(** [d[k] = v]: an existing key keeps its position, a new key goes last. *)
Fixpoint dict_set (k : string) (v : json) (d : dict) : dict :=
  match d with
  | [] => [(k, v)]
  | (k', v') :: d' =>
      if String.eqb k k' then (k', v) :: d' else (k', v') :: dict_set k v d'
  end.

Fixpoint dict_remove (k : string) (d : dict) : dict :=
  match d with
  | [] => []
  | (k', v') :: d' =>
      if String.eqb k k' then dict_remove k d' else (k', v') :: dict_remove k d'
  end.

(** [bool(x)], as used by [if x:], [not x] and [x or y]. *)
Definition truthy (x : json) : bool :=
  match x with
  | JNull => false
  | JBool b => b
  | JNum n => negb (n =? 0)
  | JStr s => negb (String.eqb s "")
  | JArr items => match items with [] => false | _ => true end
  | JObj fields => match fields with [] => false | _ => true end
  end.

(** [x[k]] with a string key. *)
Definition getitem (x : json) (k : string) : result json :=
  match x with
  | JObj d =>
      match dict_get k d with
      | Some v => Ok v
      | None => Raise (KeyError (JStr k))
      end
  | _ => Raise TypeError
  end.

(** [x[0]].  On a string Python returns its first character (here: first
    byte). *)
Definition getitem0 (x : json) : result json :=
  match x with
  | JArr (v :: _) => Ok v
  | JArr [] => Raise IndexError
  | JStr (String c _) => Ok (JStr (String c ""))
  | JStr EmptyString => Raise IndexError
  | JObj _ => Raise (KeyError (JNum 0))
  | _ => Raise TypeError
  end.

(** [x.get(k, default)]; [x.get(k)] is [get x k JNull]. *)
Definition get (x : json) (k : string) (default : json) : result json :=
  match x with
  | JObj d =>
      match dict_get k d with
      | Some v => Ok v
      | None => Ok default
      end
  | _ => Raise AttributeError
  end.

(** The items a [for] loop or a comprehension visits: the elements of a list,
    the keys of a dict, the characters of a string. *)
Definition iter (x : json) : result (list json) :=
  match x with
  | JArr items => Ok items
  | JObj d => Ok (map (fun kv => JStr (fst kv)) d)
  | JStr s => Ok (map (fun c => JStr (String c "")) (list_ascii_of_string s))
  | _ => Raise TypeError
  end.

(** [len(x)], evaluated by the script inside its log messages. *)
Definition len (x : json) : result Z :=
  match x with
  | JArr items => Ok (Z.of_nat (List.length items))
  | JObj d => Ok (Z.of_nat (List.length d))
  | JStr s => Ok (Z.of_nat (String.length s))
  | _ => Raise TypeError
  end.

(** [x + "\n"] and [acc += x] on strings. *)
Definition str_add (x : json) (s : string) : result string :=
  match x with
  | JStr t => Ok (t ++ s)%string
  | _ => Raise TypeError
  end.

Definition newline : string := String (ascii_of_nat 10) "".

(* ================================================================== *)
(** ** [convert_to_datetime]                                           *)
(* ================================================================== *)

(** Decimal numeral of an integer ([str(n)], and the digits of [%d]). *)
Definition dec (n : Z) : string := NilZero.string_of_int (Z.to_int n).

Fixpoint zeros (n : nat) : string :=
  match n with
  | O => ""
  | S n' => String "0" (zeros n')
  end.

(** [%0wd] for a non-negative number: at least [w] digits. *)
Definition zfill (w : nat) (n : Z) : string :=
  let s := dec n in (zeros (w - String.length s) ++ s)%string.

(** Proleptic Gregorian date [(year, month, day)] of a day count since
    1970-01-01, the calendar of [datetime]. *)
Definition civil_from_days (days : Z) : Z * Z * Z :=
  let z := days + 719468 in
  let era := z / 146097 in
  let doe := z mod 146097 in
  let yoe := (doe - doe / 1460 + doe / 36524 - doe / 146096) / 365 in
  let doy := doe - (365 * yoe + yoe / 4 - yoe / 100) in
  let mp := (5 * doy + 2) / 153 in
  let d := doy - (153 * mp + 2) / 5 + 1 in
  let m := if mp <? 10 then mp + 3 else mp - 9 in
  let y := yoe + era * 400 + (if m <=? 2 then 1 else 0) in
  (y, m, d).

(** Seconds since the epoch of 0001-01-01T00:00:00 and of 9999-12-31T23:59:59:
    [datetime.utcfromtimestamp] raises outside. *)
Definition MIN_SECONDS : Z := -62135596800.
Definition MAX_SECONDS : Z := 253402300799.

(** [strftime("%Y-%m-%dT%H:%M:%SZ")] of the instant [secs] seconds after the
    epoch.  [%Y] is the year as a plain decimal number (the C library does
    not pad it: 999, not 0999); the other fields are two digits wide. *)
Definition strftime_iso (secs : Z) : string :=
  let days := secs / 86400 in
  let rem := secs mod 86400 in
  let '(y, m, d) := civil_from_days days in
  (dec y ++ "-" ++ zfill 2 m ++ "-" ++ zfill 2 d ++ "T"
   ++ zfill 2 (rem / 3600) ++ ":" ++ zfill 2 (rem mod 3600 / 60) ++ ":"
   ++ zfill 2 (rem mod 60) ++ "Z")%string.

(** [datetime.utcfromtimestamp(timestamp / 1000.0).strftime(...)] on an integer
    number of milliseconds.  [%S] drops the sub-second part, so the instant
    printed is the floor of [timestamp / 1000]. *)
Definition convert_to_datetime_ms (timestamp : Z) : result string :=
  let secs := timestamp / 1000 in
  if (MIN_SECONDS <=? secs) && (secs <=? MAX_SECONDS)
  then Ok (strftime_iso secs)
  else Raise OutOfRange.

(** The function on the value found in the source object: a number (a bool
    is an [int] in Python), anything else cannot be divided. *)
Definition convert_to_datetime (timestamp : json) : result string :=
  match timestamp with
  | JNum n => convert_to_datetime_ms n
  | JBool b => convert_to_datetime_ms (if b then 1 else 0)
  | _ => Raise TypeError
  end.

(** The layout [YYYY-MM-DDTHH:MM:SSZ]. *)
Definition is_digit (c : ascii) : bool :=
  let n := nat_of_ascii c in (48 <=? n)%nat && (n <=? 57)%nat.

Fixpoint matches_layout (layout s : string) : bool :=
  match layout, s with
  | EmptyString, EmptyString => true
  | String l layout', String c s' =>
      (if Ascii.eqb l "9" then is_digit c else Ascii.eqb l c)
      && matches_layout layout' s'
  | _, _ => false
  end.

Definition iso8601_layout : string := "9999-99-99T99:99:99Z".

(* ================================================================== *)
(** ** The outside world and the script's mutable state               *)
(* ================================================================== *)

Definition RATE_LIMIT : Z := 1000.
Definition RATE_PERIOD : Z := 3600.

Record request : Type := {
  req_url : string;
  req_params : dict        (* the query parameters as they are when sent *)
}.

Inductive response : Type :=
| Response (status_code : Z) (body : option json)  (* [None]: body is not JSON *)
| NoResponse.                                      (* the connection failed *)

(** What the script does not define: its configuration, the two remote
    systems, and Python's [str()] (also used by f-strings) on the values met. *)
Record env : Type := {
  BITBUCKET_API_URL : string;
  WEBHOOK_SECRET : string;
  respond : nat -> request -> response;   (* answer to the n-th GET, n from 0 *)
  latency : nat -> Z;                     (* seconds the n-th GET takes *)
  create_reply : string -> json -> response; (* answer to a webhook POST *)
  upsert_reply : nat -> string -> json -> response;
                                          (* the sink's answer to the n-th upsert *)
  py_str : json -> string
}.

Record world : Type := {
  now : Z;                       (* [time.time()] *)
  request_count : Z;             (* global *)
  rate_limit_start : Z;          (* global *)
  heap : list dict;              (* dictionaries that are passed by reference *)
  sent : list request;           (* GETs issued to the source API, oldest first *)
  sleeps : list Z;               (* arguments of [time.sleep], oldest first *)
  posted : list (string * json); (* webhook creations: (url, payload) *)
  upserts : list (string * json) (* upsert calls made to the sink:
                                    (blueprint, entity), oldest first *)
}.

Definition set_time (t : Z) (w : world) : world :=
  {| now := t; request_count := request_count w;
     rate_limit_start := rate_limit_start w; heap := heap w; sent := sent w;
     sleeps := sleeps w; posted := posted w; upserts := upserts w |}.

Definition set_rate (count start : Z) (w : world) : world :=
  {| now := now w; request_count := count; rate_limit_start := start;
     heap := heap w; sent := sent w; sleeps := sleeps w; posted := posted w;
     upserts := upserts w |}.

Definition set_heap (h : list dict) (w : world) : world :=
  {| now := now w; request_count := request_count w;
     rate_limit_start := rate_limit_start w; heap := h; sent := sent w;
     sleeps := sleeps w; posted := posted w; upserts := upserts w |}.

Definition log_request (r : request) (w : world) : world :=
  {| now := now w; request_count := request_count w;
     rate_limit_start := rate_limit_start w; heap := heap w;
     sent := sent w ++ [r]; sleeps := sleeps w; posted := posted w;
     upserts := upserts w |}.

Definition log_sleep (d : Z) (w : world) : world :=
  {| now := now w; request_count := request_count w;
     rate_limit_start := rate_limit_start w; heap := heap w; sent := sent w;
     sleeps := sleeps w ++ [d]; posted := posted w; upserts := upserts w |}.

Definition log_post (url : string) (payload : json) (w : world) : world :=
  {| now := now w; request_count := request_count w;
     rate_limit_start := rate_limit_start w; heap := heap w; sent := sent w;
     sleeps := sleeps w; posted := posted w ++ [(url, payload)];
     upserts := upserts w |}.

Definition log_upsert (blueprint : string) (entity : json) (w : world) : world :=
  {| now := now w; request_count := request_count w;
     rate_limit_start := rate_limit_start w; heap := heap w; sent := sent w;
     sleeps := sleeps w; posted := posted w;
     upserts := upserts w ++ [(blueprint, entity)] |}.

(** [time.sleep(d)] returns [d] seconds later. *)
Definition sleep (d : Z) (w : world) : world :=
  log_sleep d (set_time (now w + d) w).

(** Dictionaries on the heap are named by their position. *)
Definition hget (l : nat) (h : list dict) : dict := nth l h [].

Fixpoint hset (l : nat) (d : dict) (h : list dict) : list dict :=
  match h, l with
  | [], _ => []
  | _ :: h', O => d :: h'
  | d' :: h', S l' => d' :: hset l' d h'
  end.

Definition alloc (d : dict) (w : world) : nat * world :=
  (List.length (heap w), set_heap (heap w ++ [d]) w).

(** [params[k] = v] on the dictionary at [l]. *)
Definition setitem (l : nat) (k : string) (v : json) (w : world) : world :=
  set_heap (hset l (dict_set k v (hget l (heap w))) (heap w)) w.

(** The state the script starts from: counters at their initial values, an
    empty heap, nothing exchanged yet. *)
Definition initial_world (t : Z) : world :=
  {| now := t; request_count := 0; rate_limit_start := t; heap := [];
     sent := []; sleeps := []; posted := []; upserts := [] |}.

(* ================================================================== *)
(** ** [get_paginated_resource]                                        *)
(* ================================================================== *)

(** A generator object: not started yet (holding the call's arguments),
    suspended at a [yield] (holding the locals that are still live), or done. *)
Inductive generator : Type :=
| Fresh (path : string) (params : option nat) (page_size : Z)
        (full_response : bool)
| Suspended (url : string) (params : nat) (full_response : bool)
            (page_json : json)
| Closed.

(** What resuming a generator produces. *)
Inductive step : Type :=
| Yield (v : json) (g : generator)
| Stop                (* [StopIteration]: the loop body ran off or returned *)
| Throw (e : exn).

(** Calling the generator function only builds the generator. *)
Definition get_paginated_resource (path : string) (params : option nat)
    (page_size : Z) (full_response : bool) : generator :=
  Fresh path params page_size full_response.

(** The check at the head of the function body. *)
Definition rate_limit_check (w : world) : world :=
  if RATE_LIMIT <=? request_count w then
    let elapsed_time := now w - rate_limit_start w in
    let w1 := if elapsed_time <? RATE_PERIOD
              then sleep (RATE_PERIOD - elapsed_time) w
              else w in
    set_rate 0 (now w1) w1
  else w.

(** [params = params or {}]: the caller's dictionary itself unless it is
    missing or empty, in which case a new one is made. *)
Definition params_or_new (params : option nat) (w : world) : nat * world :=
  match params with
  | Some l => if truthy (JObj (hget l (heap w))) then (l, w) else alloc [] w
  | None => alloc [] w
  end.

(** [response.raise_for_status()] raises for 4xx and 5xx. *)
Definition is_http_error (status_code : Z) : bool :=
  (400 <=? status_code) && (status_code <? 600).

(** One turn of the [while True] loop, from its top to the [yield]. *)
Definition request_page (E : env) (url : string) (params : nat)
    (full_response : bool) (next_page_start : json) (w : world)
    : step * world :=
  let w1 := if truthy next_page_start
            then setitem params "start" next_page_start w
            else w in
  let n := List.length (sent w1) in
  let req := {| req_url := url; req_params := hget params (heap w1) |} in
  let w2 := set_time (now w1 + latency E n) (log_request req w1) in
  match respond E n req with
  | NoResponse => (Throw ConnectionError, w2)
  | Response status_code body =>
      if is_http_error status_code then
        if status_code =? 404 then (Stop, w2)
        else (Throw (HTTPError status_code), w2)
      else
        match body with
        | None => (Throw JSONDecodeError, w2)
        | Some page_json =>
            let w3 := set_rate (request_count w2 + 1) (rate_limit_start w2) w2 in
            if full_response then
              (Yield page_json (Suspended url params full_response page_json), w3)
            else
              match getitem page_json "values" with
              | Ok batch_data =>
                  (Yield batch_data
                     (Suspended url params full_response page_json), w3)
              | Raise e => (Throw e, w3)
              end
        end
  end.

(** [next(generator)]. *)
Definition next (E : env) (g : generator) (w : world) : step * world :=
  match g with
  | Fresh path params page_size full_response =>
      let w1 := rate_limit_check w in
      let url := (BITBUCKET_API_URL E ++ "/rest/api/1.0/" ++ path)%string in
      let '(l, w2) := params_or_new params w1 in
      let w3 := setitem l "limit" (JNum page_size) w2 in
      request_page E url l full_response JNull w3
  | Suspended url params full_response page_json =>
      match get page_json "nextPageStart" JNull with
      | Raise e => (Throw e, w)
      | Ok next_page_start =>
          if truthy next_page_start
          then request_page E url params full_response next_page_start w
          else (Stop, w)
      end
  | Closed => (Stop, w)
  end.

(** [for v in generator: acc = body(v, acc)], with the loop's state threaded
    through.  [None]: the fuel ran out before the generator stopped. *)
Fixpoint for_each {A : Type} (fuel : nat) (E : env) (g : generator)
    (body : json -> A -> world -> result A * world) (acc : A) (w : world)
    : option (result A * world) :=
  match fuel with
  | O => None
  | S fuel' =>
      match next E g w with
      | (Stop, w1) => Some (Ok acc, w1)
      | (Throw e, w1) => Some (Raise e, w1)
      | (Yield v g1, w1) =>
          match body v acc w1 with
          | (Ok acc1, w2) => for_each fuel' E g1 body acc1 w2
          | (Raise e, w2) => Some (Raise e, w2)
          end
      end
  end.

(** Running a generator to its end: what it yielded, how it ended, and the
    world it leaves. *)
Fixpoint drain (fuel : nat) (E : env) (g : generator) (w : world)
    : option (list json * result unit * world) :=
  match fuel with
  | O => None
  | S fuel' =>
      match next E g w with
      | (Stop, w1) => Some ([], Ok tt, w1)
      | (Throw e, w1) => Some ([], Raise e, w1)
      | (Yield v g1, w1) =>
          match drain fuel' E g1 w1 with
          | Some (vs, r, w2) => Some (v :: vs, r, w2)
          | None => None
          end
      end
  end.

(* ================================================================== *)
(** ** Entity mapping                                                  *)
(* ================================================================== *)

(** [add_entity_to_port]: one upsert call, with no [raise_for_status] and no
    [try]: the status of the reply is ignored, but [requests.post] raises when
    the sink cannot be reached and [response.json()] raises when the reply is
    not JSON. *)
Definition add_entity_to_port (E : env) (blueprint_id : string)
    (entity_object : json) (w : world) : result unit * world :=
  let n := List.length (upserts w) in
  let w1 := log_upsert blueprint_id entity_object w in
  match upsert_reply E n blueprint_id entity_object with
  | NoResponse => (Raise ConnectionError, w1)
  | Response _ None => (Raise JSONDecodeError, w1)
  | Response _ (Some _) => (Ok tt, w1)
  end.

(** [user["user"][field]], the element expression of the two comprehensions. *)
Definition user_field (field : string) (user : json) : result json :=
  u <- getitem user "user" ;; getitem u field.

(** The dictionary display bound to [entity] in
    [process_pullrequest_entities]; its items are evaluated in order. *)
Definition pullrequest_entity (E : env) (pr : json) : result json :=
  id <- getitem pr "id" ;;
  title <- getitem pr "title" ;;
  createdDate <- getitem pr "createdDate" ;;
  created_on <- convert_to_datetime createdDate ;;
  updatedDate <- getitem pr "updatedDate" ;;
  updated_on <- convert_to_datetime updatedDate ;;
  fromRef <- getitem pr "fromRef" ;;
  merge_commit <- getitem fromRef "latestCommit" ;;
  description <- get pr "description" JNull ;;
  state <- getitem pr "state" ;;
  author <- getitem pr "author" ;;
  owner <- user_field "displayName" author ;;
  links <- getitem pr "links" ;;
  self <- getitem links "self" ;;
  self0 <- getitem0 self ;;
  link <- getitem self0 "href" ;;
  toRef <- getitem pr "toRef" ;;
  destination <- getitem toRef "displayId" ;;
  reviewers_src <- get pr "reviewers" (JArr []) ;;
  reviewers_items <- iter reviewers_src ;;
  reviewers <- mapM (user_field "displayName") reviewers_items ;;
  fromRef' <- getitem pr "fromRef" ;;
  source <- getitem fromRef' "displayId" ;;
  toRef' <- getitem pr "toRef" ;;
  repository <- getitem toRef' "repository" ;;
  slug <- getitem repository "slug" ;;
  author' <- get pr "author" JNull ;;
  author_email <- user_field "emailAddress" author' ;;
  participants_src <- get pr "participants" (JArr []) ;;
  participants_items <- iter participants_src ;;
  participants <- mapM (user_field "emailAddress") participants_items ;;
  Ok (JObj
        [("identifier", JStr (py_str E id));
         ("title", title);
         ("properties",
           JObj [("created_on", JStr created_on);
                 ("updated_on", JStr updated_on);
                 ("merge_commit", merge_commit);
                 ("description", description);
                 ("state", state);
                 ("owner", owner);
                 ("link", link);
                 ("destination", destination);
                 ("reviewers", JArr reviewers);
                 ("source", source)]);
         ("relations",
           JObj [("repository", slug);
                 ("participants", JArr (author_email :: participants))])]).

(** The [for pr in pullrequest_data] loop: nothing catches what the mapping
    or the upsert raises. *)
Fixpoint process_pullrequests (E : env) (prs : list json) (w : world)
    : result unit * world :=
  match prs with
  | [] => (Ok tt, w)
  | pr :: rest =>
      match pullrequest_entity E pr with
      | Raise e => (Raise e, w)
      | Ok entity =>
          match add_entity_to_port E "bitbucketPullrequest" entity w with
          | (Raise e, w1) => (Raise e, w1)
          | (Ok _, w1) => process_pullrequests E rest w1
          end
      end
  end.

Definition process_pullrequest_entities (E : env) (pullrequest_data : json)
    (w : world) : result unit * world :=
  match iter pullrequest_data with
  | Raise e => (Raise e, w)
  | Ok prs => process_pullrequests E prs w
  end.

(** The body of the inner loop of [get_repository_pull_requests]. *)
Definition pull_requests_body (E : env) (pull_requests_batch : json)
    (_ : unit) (w : world) : result unit * world :=
  match len pull_requests_batch with
  | Raise e => (Raise e, w)
  | Ok _ => process_pullrequest_entities E pull_requests_batch w
  end.

(** The loop over the repositories; [pr_params] is the one dictionary made
    before the loop. *)
Fixpoint pull_requests_of (fuel : nat) (E : env) (pr_params : nat)
    (repositories : list json) (w : world) : option (result unit * world) :=
  match repositories with
  | [] => Some (Ok tt, w)
  | repository :: rest =>
      match (project <- getitem repository "project" ;;
             key <- getitem project "key" ;;
             slug <- getitem repository "slug" ;;
             Ok ("projects/" ++ py_str E key ++ "/repos/" ++ py_str E slug
                 ++ "/pull-requests")%string) with
      | Raise e => Some (Raise e, w)
      | Ok pull_requests_path =>
          match for_each fuel E
                  (get_paginated_resource pull_requests_path (Some pr_params)
                     25 false)
                  (pull_requests_body E) tt w with
          | None => None
          | Some (Raise e, w1) => Some (Raise e, w1)
          | Some (Ok _, w1) => pull_requests_of fuel E pr_params rest w1
          end
      end
  end.

Definition get_repository_pull_requests (fuel : nat) (E : env)
    (repository_batch : json) (w : world) : option (result unit * world) :=
  let '(pr_params, w1) := alloc [("state", JStr "ALL")] w in
  match iter repository_batch with
  | Raise e => Some (Raise e, w1)
  | Ok repositories => pull_requests_of fuel E pr_params repositories w1
  end.

(* ================================================================== *)
(** ** README retrieval and the repository entity                      *)
(* ================================================================== *)

(** The [for line in lines] loop of [parse_repository_file_response]. *)
Fixpoint append_lines (lines : list json) (readme_content : string)
    : result string :=
  match lines with
  | [] => Ok readme_content
  | line :: rest =>
      text <- get line "text" (JStr "") ;;
      terminated <- str_add text newline ;;
      append_lines rest (readme_content ++ terminated)%string
  end.

Definition parse_repository_file_response (file_response : json)
    : result string :=
  lines <- get file_response "lines" (JArr []) ;;
  _ <- len lines ;;
  items <- iter lines ;;
  append_lines items "".

Definition readme_path (E : env) (project_key repo_slug : json) : string :=
  ("projects/" ++ py_str E project_key ++ "/repos/" ++ py_str E repo_slug
   ++ "/browse/README.md")%string.

Definition readme_body (readme_file_batch : json) (readme_content : string)
    (w : world) : result string * world :=
  (file_content <- parse_repository_file_response readme_file_batch ;;
   Ok (readme_content ++ file_content)%string, w).

Definition get_repository_readme (fuel : nat) (E : env)
    (project_key repo_slug : json) (w : world)
    : option (result string * world) :=
  for_each fuel E
    (get_paginated_resource (readme_path E project_key repo_slug) None 500 true)
    readme_body "" w.

(** The dictionary display of [process_repository_entities], after the README
    has been fetched. *)
Definition repository_entity_with (E : env) (repo : json)
    (readme_content : string) : result json :=
  slug <- getitem repo "slug" ;;
  name <- getitem repo "name" ;;
  description <- get repo "description" JNull ;;
  state <- getitem repo "state" ;;
  forkable <- getitem repo "forkable" ;;
  public <- getitem repo "public" ;;
  links <- getitem repo "links" ;;
  self <- getitem links "self" ;;
  self0 <- getitem0 self ;;
  link <- getitem self0 "href" ;;
  slug' <- getitem repo "slug" ;;
  project <- getitem repo "project" ;;
  key <- getitem project "key" ;;
  latestCommit <- get repo "__latestCommit" (JObj []) ;;
  committer <- get latestCommit "committer" (JObj []) ;;
  latestCommitAuthor <- get committer "emailAddress" JNull ;;
  Ok (JObj
        [("identifier", slug);
         ("title", name);
         ("properties",
           JObj [("description", description);
                 ("state", state);
                 ("forkable", forkable);
                 ("public", public);
                 ("link", link);
                 ("documentation", JStr readme_content);
                 ("swagger_url",
                   JStr ("https://api." ++ py_str E slug' ++ ".com")%string)]);
         ("relations",
           JObj [("project", key);
                 ("latestCommitAuthor", latestCommitAuthor)])]).

(** One turn of the loop of [process_repository_entities], up to the entity. *)
Definition repository_entity (fuel : nat) (E : env) (repo : json) (w : world)
    : option (result json * world) :=
  match (project <- getitem repo "project" ;;
         key <- getitem project "key" ;;
         slug <- getitem repo "slug" ;;
         Ok (key, slug)) with
  | Raise e => Some (Raise e, w)
  | Ok (key, slug) =>
      match get_repository_readme fuel E key slug w with
      | None => None
      | Some (Raise e, w1) => Some (Raise e, w1)
      | Some (Ok readme_content, w1) =>
          Some (repository_entity_with E repo readme_content, w1)
      end
  end.

Fixpoint process_repositories (fuel : nat) (E : env) (repos : list json)
    (w : world) : option (result unit * world) :=
  match repos with
  | [] => Some (Ok tt, w)
  | repo :: rest =>
      match repository_entity fuel E repo w with
      | None => None
      | Some (Raise e, w1) => Some (Raise e, w1)
      | Some (Ok entity, w1) =>
          match add_entity_to_port E "bitbucketRepository" entity w1 with
          | (Raise e, w2) => Some (Raise e, w2)
          | (Ok _, w2) => process_repositories fuel E rest w2
          end
      end
  end.

Definition process_repository_entities (fuel : nat) (E : env)
    (repository_data : json) (w : world) : option (result unit * world) :=
  match iter repository_data with
  | Raise e => Some (Raise e, w)
  | Ok repos => process_repositories fuel E repos w
  end.

(* ================================================================== *)
(** ** Project webhooks                                                *)
(* ================================================================== *)

Definition webhooks_url (E : env) (project_key : string) : string :=
  (BITBUCKET_API_URL E ++ "/rest/api/1.0/projects/" ++ project_key
   ++ "/webhooks")%string.

Definition webhook_data (E : env) (webhook_url : string)
    (events : list string) : json :=
  JObj [("name", JStr "Port Webhook");
        ("url", JStr webhook_url);
        ("events", JArr (map JStr events));
        ("active", JBool true);
        ("sslVerificationRequired", JBool true);
        ("configuration",
          JObj [("secret", JStr (WEBHOOK_SECRET E));
                ("createdBy", JStr "Port")])].

(** [None] is [JNull]; an HTTP error is caught and turned into [None]. *)
Definition create_project_webhook (E : env) (project_key webhook_url : string)
    (events : list string) (w : world) : result json * world :=
  let url := webhooks_url E project_key in
  let data := webhook_data E webhook_url events in
  let w1 := log_post url data w in
  match create_reply E url data with
  | NoResponse => (Raise ConnectionError, w1)
  | Response status_code body =>
      if is_http_error status_code then (Ok JNull, w1)
      else match body with
           | None => (Raise JSONDecodeError, w1)
           | Some created => (Ok created, w1)
           end
  end.

(** [webhook["url"] == webhook_url] for a [str] on the right. *)
Definition equals_str (x : json) (s : string) : bool :=
  match x with
  | JStr t => String.eqb t s
  | _ => false
  end.

(** The inner clause of the comprehension: [for webhook in batch if ...]. *)
Fixpoint select_matching (webhook_url : string) (webhooks : list json)
    (matching_webhooks : list json) : result (list json) :=
  match webhooks with
  | [] => Ok matching_webhooks
  | webhook :: rest =>
      url <- getitem webhook "url" ;;
      select_matching webhook_url rest
        (if equals_str url webhook_url
         then matching_webhooks ++ [webhook]
         else matching_webhooks)
  end.

Definition matching_body (webhook_url : string)
    (project_webhooks_batch : json) (matching_webhooks : list json)
    (w : world) : result (list json) * world :=
  (webhooks <- iter project_webhooks_batch ;;
   select_matching webhook_url webhooks matching_webhooks, w).

Definition get_or_create_project_webhook (fuel : nat) (E : env)
    (project_key : string) (webhook_url : option string)
    (events : list string) (w : world) : option (result json * world) :=
  match webhook_url with
  | None => Some (Ok JNull, w)
  | Some url =>
      match for_each fuel E
              (get_paginated_resource
                 ("projects/" ++ project_key ++ "/webhooks")%string None 25
                 false)
              (matching_body url) [] w with
      | None => None
      | Some (Raise (HTTPError _), w1) => Some (Ok JNull, w1)
      | Some (Raise e, w1) => Some (Raise e, w1)
      | Some (Ok (webhook :: _), w1) => Some (Ok webhook, w1)
      | Some (Ok [], w1) =>
          Some (create_project_webhook E project_key url events w1)
      end
  end.

(* ================================================================== *)
(** ** Vocabulary of the statements                                    *)
(* ================================================================== *)

(** The source API answers the GETs numbered [i], [i+1], ... with the
    responses [rs], whatever is asked (a scripted server). *)
Definition serves (E : env) (i : nat) (rs : list response) : Prop :=
  forall k r, nth_error rs k = Some r ->
  forall req, respond E (i + k) req = r.

(** A successful page: status 200 and a JSON object as body. *)
Definition page_response (page : dict) : response :=
  Response 200 (Some (JObj page)).

(** [page_json.get("nextPageStart")]. *)
Definition cursor (page : dict) : json :=
  match dict_get "nextPageStart" page with
  | Some v => v
  | None => JNull
  end.

(** What a page contributes to the sequence: its envelope in full-response
    mode, its [values] otherwise. *)
Definition batch_of (full_response : bool) (page : dict) : option json :=
  if full_response then Some (JObj page) else dict_get "values" page.

Definition has_batch (full_response : bool) (page : dict) (batch : json)
    : Prop :=
  batch_of full_response page = Some batch.

Definition mk_request (url : string) (d : dict) : request :=
  {| req_url := url; req_params := d |}.

(** The request for the page after [page]: [start] is the cursor it reported. *)
Definition with_start (url : string) (d : dict) (page : dict) : request :=
  mk_request url (dict_set "start" (cursor page) d).

Definition api_url (E : env) (path : string) : string :=
  (BITBUCKET_API_URL E ++ "/rest/api/1.0/" ++ path)%string.

(** The query parameters the caller passed, as they are when the generator
    starts ([{}] when the argument is missing or empty). *)
Definition caller_params (params : option nat) (w : world) : dict :=
  match params with
  | Some l => if truthy (JObj (hget l (heap w))) then hget l (heap w) else []
  | None => []
  end.

(** The [start] parameter of every request sent so far. *)
Definition starts (w : world) : list (option json) :=
  map (fun r => dict_get "start" (req_params r)) (sent w).

(** A generator whose next resumption issues a page request. *)
Definition will_request (g : generator) : bool :=
  match g with
  | Fresh _ _ _ _ => true
  | Suspended _ _ _ page_json =>
      match get page_json "nextPageStart" JNull with
      | Ok next_page_start => truthy next_page_start
      | Raise _ => false
      end
  | Closed => false
  end.

(** The failure policy of the [except] clause, seen by the consumer. *)
Definition on_http_error {A : Type} (status_code : Z) (a : A) : result A :=
  if status_code =? 404 then Ok a else Raise (HTTPError status_code).

(** A loop whose body only computes: the fold it performs on the batches. *)
Fixpoint foldM {A : Type} (f : json -> A -> result A) (vs : list json)
    (acc : A) : result A :=
  match vs with
  | [] => Ok acc
  | v :: vs' => acc' <- f v acc ;; foldM f vs' acc'
  end.

(** [batch] is a sequence holding [items]. *)
Definition lists (batch : json) (items : list json) : Prop :=
  iter batch = Ok items.

Definition has_url (webhook : json) : Prop :=
  exists url, getitem webhook "url" = Ok url.

(** The webhook is registered at [webhook_url]. *)
Definition registered_at (webhook_url : string) (webhook : json) : bool :=
  match getitem webhook "url" with
  | Ok url => equals_str url webhook_url
  | Raise _ => false
  end.

(** Every text followed by a newline. *)
Fixpoint terminated (texts : list string) : string :=
  match texts with
  | [] => ""
  | t :: texts' => (t ++ newline ++ terminated texts')%string
  end.

(** The wording of the specification: the texts joined with newlines. *)
Definition joined (texts : list string) : string :=
  String.concat newline texts.

(** The line's text ([""] when it has none). *)
Definition line_text (line : json) (text : string) : Prop :=
  get line "text" (JStr "") = Ok (JStr text).

(** A file-content page whose lines carry [texts]. *)
Definition page_lines (page : json) (texts : list string) : Prop :=
  exists lines,
    get page "lines" (JArr []) = Ok (JArr lines)
    /\ Forall2 line_text lines texts.

Definition property (name : string) (entity : json) : result json :=
  properties <- getitem entity "properties" ;; getitem properties name.

Definition relation (name : string) (entity : json) : result json :=
  relations <- getitem entity "relations" ;; getitem relations name.

(** The sink answers the upsert calls numbered [i], ..., [i+n-1] with JSON. *)
Definition sink_accepts (E : env) (i n : nat) : Prop :=
  forall k blueprint entity, (k < n)%nat ->
  exists status_code reply,
    upsert_reply E (i + k) blueprint entity = Response status_code (Some reply).

(** A pull request stripped of its optional fields. *)
Definition without_optional (fields : dict) : dict :=
  dict_remove "description"
    (dict_remove "reviewers" (dict_remove "participants" fields)).

Definition digits_exactly (w : nat) (s : string) : bool :=
  Nat.eqb (String.length s) w && forallb is_digit (list_ascii_of_string s).

(* ================================================================== *)
(** ** Sample data                                                     *)
(* ================================================================== *)

(** [str()] on the scalars; enough for the samples below. *)
Definition simple_str (x : json) : string :=
  match x with
  | JStr s => s
  | JNum n => dec n
  | JBool true => "True"
  | JBool false => "False"
  | JNull => "None"
  | _ => ""
  end.

(** A source API that replays [rs] and then stops answering. *)
Definition scripted (rs : list response) : env :=
  {| BITBUCKET_API_URL := "https://bitbucket.example";
     WEBHOOK_SECRET := "bitbucket_webhook_secret";
     respond := fun n _ => nth n rs NoResponse;
     latency := fun _ => 0;
     create_reply := fun _ _ => Response 200 (Some (JObj [("id", JNum 1)]));
     upsert_reply := fun _ _ _ => Response 200 (Some (JObj [("ok", JBool true)]));
     py_str := simple_str |}.

Definition page (values : list json) (next_page_start : option Z) : dict :=
  ("values", JArr values)
  :: match next_page_start with
     | Some n => [("nextPageStart", JNum n)]
     | None => []
     end.

(** A listing of [pages] pages of users, each pointing at the next. *)
Definition long_listing (pages : Z) : env :=
  {| BITBUCKET_API_URL := "https://bitbucket.example";
     WEBHOOK_SECRET := "bitbucket_webhook_secret";
     respond := fun n _ =>
       let k := Z.of_nat n + 1 in
       page_response
         (page [JObj [("name", JStr "user")]]
            (if k <? pages then Some (25 * k) else None));
     latency := fun _ => 0;
     create_reply := fun _ _ => NoResponse;
     upsert_reply := fun _ _ _ => NoResponse;
     py_str := simple_str |}.

(** A source API that reports the same cursor for ever. *)
Definition endless : env :=
  {| BITBUCKET_API_URL := "https://bitbucket.example";
     WEBHOOK_SECRET := "bitbucket_webhook_secret";
     respond := fun _ _ => page_response (page [] (Some 25));
     latency := fun _ => 0;
     create_reply := fun _ _ => NoResponse;
     upsert_reply := fun _ _ _ => NoResponse;
     py_str := simple_str |}.

Definition sample_user (name email : string) : json :=
  JObj [("user",
          JObj [("displayName", JStr name); ("emailAddress", JStr email)])].

Definition sample_pr_fields : dict :=
  [("id", JNum 7);
   ("title", JStr "Add retry");
   ("createdDate", JNum 0);
   ("updatedDate", JNum 1700000000000);
   ("fromRef",
     JObj [("latestCommit", JStr "4f2a9c1"); ("displayId", JStr "retry")]);
   ("description", JStr "Retries failed calls");
   ("state", JStr "OPEN");
   ("author", sample_user "Ann" "ann@example.com");
   ("links",
     JObj [("self",
             JArr [JObj [("href", JStr "https://bitbucket.example/pr/7")]])]);
   ("toRef",
     JObj [("displayId", JStr "main");
           ("repository", JObj [("slug", JStr "alpha")])]);
   ("reviewers", JArr [sample_user "Bob" "bob@example.com"]);
   ("participants",
     JArr [sample_user "Bob" "bob@example.com";
           sample_user "Ann" "ann@example.com";
           sample_user "Bob" "bob@example.com"])].

Definition sample_pr : json := JObj sample_pr_fields.

Definition sample_pr_entity : json :=
  JObj
    [("identifier", JStr "7");
     ("title", JStr "Add retry");
     ("properties",
       JObj [("created_on", JStr "1970-01-01T00:00:00Z");
             ("updated_on", JStr "2023-11-14T22:13:20Z");
             ("merge_commit", JStr "4f2a9c1");
             ("description", JStr "Retries failed calls");
             ("state", JStr "OPEN");
             ("owner", JStr "Ann");
             ("link", JStr "https://bitbucket.example/pr/7");
             ("destination", JStr "main");
             ("reviewers", JArr [JStr "Bob"]);
             ("source", JStr "retry")]);
     ("relations",
       JObj [("repository", JStr "alpha");
             ("participants",
               JArr [JStr "ann@example.com"; JStr "bob@example.com";
                     JStr "ann@example.com"; JStr "bob@example.com"])])].

Definition sample_repo (slug : string) : json :=
  JObj [("slug", JStr slug);
        ("name", JStr slug);
        ("state", JStr "AVAILABLE");
        ("forkable", JBool true);
        ("public", JBool false);
        ("links",
          JObj [("self",
                  JArr [JObj [("href", JStr "https://bitbucket.example/repo")]])]);
        ("project", JObj [("key", JStr "PRJ")])].

(** Two repositories; the pull requests of the first span two pages. *)
Definition two_repos : env :=
  scripted
    [page_response (page [sample_pr] (Some 25));
     page_response (page [sample_pr] None);
     page_response (page [sample_pr] None)].

Definition readme_lines (texts : list string) : json :=
  JArr (map (fun t => JObj [("text", JStr t)]) texts).

(** A README of three lines served in two pages. *)
Definition readme_pages : list json :=
  [JObj [("lines", readme_lines ["# alpha"; ""]); ("nextPageStart", JNum 2)];
   JObj [("lines", readme_lines ["usage"])]].

Definition readme_server : env :=
  scripted (map (fun p => Response 200 (Some p)) readme_pages).

Definition sink_url : string := "https://ingest.example/hook".

Definition sample_webhook (id : Z) (url : string) : json :=
  JObj [("id", JNum id); ("name", JStr "hook"); ("url", JStr url)].

Definition webhooks_with_match : env :=
  scripted
    [page_response
       (page [sample_webhook 1 "https://ci.example/build";
              sample_webhook 2 sink_url] None)].

Definition webhooks_without_match : env :=
  scripted
    [page_response (page [sample_webhook 1 "https://ci.example/build"] None)].

(* ================================================================== *)
(** ** Proof automation                                                *)
(* ================================================================== *)

(** Walks down a chain of binds known to succeed, naming each step. *)
Ltac step_binds H :=
  repeat match type of H with
         | bind ?r _ = Ok _ =>
             let Hr := fresh "Hstep" in
             destruct r eqn:Hr; [cbn [bind] in H|discriminate]
         end.

Ltac split_ifs :=
  repeat match goal with
         | |- context [if ?a <? ?b then _ else _] => destruct (Z.ltb_spec a b)
         | |- context [if ?a <=? ?b then _ else _] => destruct (Z.leb_spec a b)
         end.

(** The cases of the check at the head of the fetcher. *)
Ltac check_cases :=
  unfold rate_limit_check;
  destruct (RATE_LIMIT <=? _); auto;
  destruct (_ <? RATE_PERIOD); reflexivity.

(* ================================================================== *)
(** * Properties                                                       *)
(* ================================================================== *)

(** ** Dictionaries, the heap and lists *)

Lemma dict_set_set k v v' d :
  dict_set k v (dict_set k v' d) = dict_set k v d.
Proof.
  induction d as [|[k' x] d IH]; simpl.
  - rewrite String.eqb_refl. reflexivity.
  - destruct (String.eqb k k') eqn:Hk; simpl; rewrite Hk; [reflexivity|].
    now rewrite IH.
Qed.

Lemma dict_get_set_same k v d : dict_get k (dict_set k v d) = Some v.
Proof.
  induction d as [|[k' x] d IH]; simpl.
  - now rewrite String.eqb_refl.
  - destruct (String.eqb k k') eqn:Hk; simpl; now rewrite Hk.
Qed.

Lemma dict_get_set_other k k' v d :
  String.eqb k k' = false -> dict_get k (dict_set k' v d) = dict_get k d.
Proof.
  intros Hk. induction d as [|[k0 x] d IH]; simpl.
  - now rewrite Hk.
  - destruct (String.eqb k' k0) eqn:Hk0; simpl.
    + apply String.eqb_eq in Hk0. subst k0. now rewrite Hk.
    + destruct (String.eqb k k0); auto.
Qed.

Lemma dict_get_remove_other k k' d :
  String.eqb k k' = false -> dict_get k (dict_remove k' d) = dict_get k d.
Proof.
  intros Hk. induction d as [|[k0 v] d IH]; simpl; [reflexivity|].
  destruct (String.eqb k' k0) eqn:Hk0; simpl.
  - apply String.eqb_eq in Hk0. subst k0. now rewrite Hk.
  - now rewrite IH.
Qed.

Lemma dict_get_remove_same k d : dict_get k (dict_remove k d) = None.
Proof.
  induction d as [|[k0 v] d IH]; simpl; [reflexivity|].
  destruct (String.eqb k k0) eqn:Hk0; simpl; [assumption|]. now rewrite Hk0.
Qed.

Lemma hset_length l d h : List.length (hset l d h) = List.length h.
Proof.
  revert l. induction h as [|x h IH]; intros [|l]; simpl; auto.
Qed.

Lemma hget_hset l d h : (l < List.length h)%nat -> hget l (hset l d h) = d.
Proof.
  unfold hget. revert l.
  induction h as [|x h IH]; intros [|l]; simpl; intros; try lia; auto.
  apply IH. lia.
Qed.

Lemma hget_alloc d h : hget (List.length h) (h ++ [d]) = d.
Proof.
  unfold hget. rewrite app_nth2, Nat.sub_diag by lia. reflexivity.
Qed.

Lemma hget_truthy_in_range l h :
  truthy (JObj (hget l h)) = true -> (l < List.length h)%nat.
Proof.
  unfold hget. intros H. destruct (Nat.lt_ge_cases l (List.length h)); auto.
  rewrite nth_overflow in H by lia. discriminate.
Qed.

Lemma last_cons {A} (l : list A) (a d : A) : last (a :: l) d = last l a.
Proof.
  revert a d. induction l as [|b l IH]; intros a d; [reflexivity|].
  change (last (a :: b :: l) d) with (last (b :: l) d).
  rewrite (IH b). symmetry. apply IH.
Qed.

Lemma last_in_cons {A} (l : list A) (a : A) : In (last l a) (a :: l).
Proof.
  revert a. induction l as [|b l IH]; intros a; [now left|].
  rewrite last_cons. right. apply IH.
Qed.

Lemma removelast_cons_length {A} (l : list A) (a : A) :
  List.length (removelast (a :: l)) = List.length l.
Proof.
  revert a. induction l as [|b l IH]; intros a; [reflexivity|].
  change (removelast (a :: b :: l)) with (a :: removelast (b :: l)).
  cbn [List.length]. f_equal. apply IH.
Qed.

Lemma find_filter {A} (f : A -> bool) (l : list A) :
  find f l = hd_error (filter f l).
Proof.
  induction l as [|a l IH]; simpl; [reflexivity|]. destruct (f a); auto.
Qed.

Lemma append_assoc (a b c : string) : ((a ++ b) ++ c = a ++ (b ++ c))%string.
Proof. induction a as [|x a IH]; simpl; [reflexivity|now rewrite IH]. Qed.

Lemma append_empty_r (a : string) : (a ++ "")%string = a.
Proof. induction a as [|x a IH]; simpl; [reflexivity|now rewrite IH]. Qed.

Lemma mapM_Forall2 {A B} (f : A -> result B) : forall l bs,
  mapM f l = Ok bs -> Forall2 (fun a b => f a = Ok b) l bs.
Proof.
  induction l as [|a l IH]; simpl; intros bs H.
  - inversion H. constructor.
  - destruct (f a) as [b|] eqn:Hb; [|discriminate]. simpl in H.
    destruct (mapM f l) as [bs'|]; [|discriminate]. inversion H; subst.
    constructor; auto.
Qed.

(** A boolean property checked on [0 .. hi-1] holds on that range. *)
Lemma forall_range (P : Z -> bool) (hi : Z) :
  forallb P (map Z.of_nat (seq 0 (Z.to_nat hi))) = true ->
  forall z, 0 <= z < hi -> P z = true.
Proof.
  intros H z Hz. rewrite forallb_forall in H. apply H.
  apply in_map_iff. exists (Z.to_nat z). split; [lia|].
  apply in_seq. lia.
Qed.

(* ================================================================== *)
(** ** Timestamps                                                      *)
(* ================================================================== *)

(** From 1000-01-01 to 9999-12-31 the calendar yields a four-digit year, a
    month and a day of month. *)
Lemma civil_bounds days :
  -354285 <= days <= 2932896 ->
  let '(y, m, d) := civil_from_days days in
  1000 <= y <= 9999 /\ 1 <= m <= 12 /\ 1 <= d <= 31.
Proof.
  intros H. unfold civil_from_days. cbv zeta. split_ifs.
  all: Z.div_mod_to_equations; lia.
Qed.

Lemma zfill2_digits n : 0 <= n <= 99 -> digits_exactly 2 (zfill 2 n) = true.
Proof.
  intros H. apply (forall_range (fun n => digits_exactly 2 (zfill 2 n)) 100).
  - vm_compute. reflexivity.
  - lia.
Qed.

Lemma year_digits n : 1000 <= n <= 9999 -> digits_exactly 4 (dec n) = true.
Proof.
  intros H.
  pose proof (forall_range
                (fun n => (n <? 1000) || digits_exactly 4 (dec n)) 10000) as Hr.
  cbv beta in Hr. specialize (Hr ltac:(vm_compute; reflexivity) n ltac:(lia)).
  destruct (Z.ltb_spec n 1000); [lia|exact Hr].
Qed.

Lemma matches_layout_app l1 l2 s1 s2 :
  matches_layout l1 s1 = true -> matches_layout l2 s2 = true ->
  matches_layout (l1 ++ l2) (s1 ++ s2) = true.
Proof.
  revert s1. induction l1 as [|c l1 IH]; intros [|d s1]; simpl;
    try discriminate; auto.
  intros H1 H2. apply andb_true_iff in H1 as [Hc H1]. rewrite Hc. simpl. auto.
Qed.

Lemma digits_layout2 s :
  digits_exactly 2 s = true -> matches_layout "99" s = true.
Proof.
  destruct s as [|a [|b [|c s]]]; try discriminate.
  unfold digits_exactly. simpl. intros H.
  repeat rewrite andb_true_r in *. exact H.
Qed.

Lemma digits_layout4 s :
  digits_exactly 4 s = true -> matches_layout "9999" s = true.
Proof.
  destruct s as [|a [|b [|c [|d [|e s]]]]]; try discriminate.
  unfold digits_exactly. simpl. intros H.
  repeat rewrite andb_true_r in *. rewrite !andb_assoc in *. exact H.
Qed.

Lemma strftime_iso_layout secs :
  -30610224000 <= secs <= MAX_SECONDS ->
  matches_layout iso8601_layout (strftime_iso secs) = true.
Proof.
  unfold MAX_SECONDS. intros H. unfold strftime_iso.
  assert (Hd : -354285 <= secs / 86400 <= 2932896)
    by (Z.div_mod_to_equations; lia).
  pose proof (civil_bounds _ Hd) as Hc.
  destruct (civil_from_days (secs / 86400)) as [[y m] d].
  destruct Hc as (Hy & Hm & Hday).
  change iso8601_layout
    with ("9999" ++ "-" ++ "99" ++ "-" ++ "99" ++ "T" ++ "99" ++ ":" ++ "99"
          ++ ":" ++ "99" ++ "Z")%string.
  repeat first
    [ apply matches_layout_app
    | reflexivity
    | apply digits_layout4, year_digits; lia
    | apply digits_layout2, zfill2_digits; try lia;
      Z.div_mod_to_equations; lia ].
Qed.

(** C8. [convert_to_datetime] maps 0 to "1970-01-01T00:00:00Z" and
    1700000000000 to "2023-11-14T22:13:20Z", and every epoch-millisecond value
    from 1000-01-01 to the end of year 9999 to a string laid out as
    YYYY-MM-DDTHH:MM:SSZ. *)
Theorem convert_to_datetime_iso8601 :
  convert_to_datetime (JNum 0) = Ok "1970-01-01T00:00:00Z"
  /\ convert_to_datetime (JNum 1700000000000) = Ok "2023-11-14T22:13:20Z"
  /\ forall timestamp,
       -30610224000000 <= timestamp <= 253402300799999 ->
       exists s,
         convert_to_datetime (JNum timestamp) = Ok s
         /\ matches_layout iso8601_layout s = true.
Proof.
  split; [reflexivity|]. split; [reflexivity|].
  intros timestamp H. cbn [convert_to_datetime].
  unfold convert_to_datetime_ms, MIN_SECONDS, MAX_SECONDS.
  assert (Hs : -30610224000 <= timestamp / 1000 <= 253402300799)
    by (Z.div_mod_to_equations; lia).
  destruct (Z.leb_spec (-62135596800) (timestamp / 1000)); [|lia].
  destruct (Z.leb_spec (timestamp / 1000) 253402300799); [|lia].
  eexists. split; [reflexivity|]. now apply strftime_iso_layout.
Qed.

Lemma convert_to_datetime_iso8601_witness :
  exists s,
    convert_to_datetime (JNum 1234567890123) = Ok s
    /\ matches_layout iso8601_layout s = true.
Proof.
  apply (proj2 (proj2 convert_to_datetime_iso8601) 1234567890123). lia.
Defined.

(* ================================================================== *)
(** ** The paginated fetcher                                           *)
(* ================================================================== *)

Lemma serves_cons E i r rs :
  serves E i (r :: rs) ->
  (forall req, respond E i req = r) /\ serves E (S i) rs.
Proof.
  intros H. split.
  - intros req. specialize (H O r eq_refl req). now rewrite Nat.add_0_r in H.
  - intros k r' Hk req. specialize (H (S k) r' Hk req).
    now rewrite Nat.add_succ_r in H.
Qed.

Lemma serves_app E i rs rs' :
  serves E i (rs ++ rs') ->
  serves E i rs /\ serves E (i + List.length rs) rs'.
Proof.
  intros H. split.
  - intros k r Hk req. apply H. rewrite nth_error_app1; auto.
    apply nth_error_Some. congruence.
  - intros k r Hk req. rewrite <- Nat.add_assoc. apply H.
    rewrite nth_error_app2 by lia.
    now replace (List.length rs + k - List.length rs)%nat with k by lia.
Qed.

Lemma serves_scripted rs : serves (scripted rs) 0 rs.
Proof.
  intros k r Hk req. simpl. now apply nth_error_nth.
Qed.

(** The check at the head of the function touches the clock and the two
    counters only. *)
Lemma rate_limit_check_heap w : heap (rate_limit_check w) = heap w.
Proof. check_cases. Qed.

Lemma rate_limit_check_sent w : sent (rate_limit_check w) = sent w.
Proof. check_cases. Qed.

Lemma rate_limit_check_posted w : posted (rate_limit_check w) = posted w.
Proof. check_cases. Qed.

Lemma rate_limit_check_upserts w : upserts (rate_limit_check w) = upserts w.
Proof. check_cases. Qed.

(** When the count has reached the limit inside the window, the check sleeps
    for the rest of the window and opens a new one; below the limit it does
    nothing. *)
Lemma rate_limit_check_blocks w :
  RATE_LIMIT <= request_count w ->
  0 <= now w - rate_limit_start w < RATE_PERIOD ->
  let w' := rate_limit_check w in
  sleeps w' = sleeps w ++ [RATE_PERIOD - (now w - rate_limit_start w)]
  /\ now w' = rate_limit_start w + RATE_PERIOD
  /\ request_count w' = 0
  /\ rate_limit_start w' = now w'.
Proof.
  intros Hc He. unfold rate_limit_check.
  destruct (Z.leb_spec RATE_LIMIT (request_count w)); [|lia].
  destruct (Z.ltb_spec (now w - rate_limit_start w) RATE_PERIOD); [|lia].
  unfold sleep, log_sleep, set_time, set_rate.
  cbn [now sleeps request_count rate_limit_start]. repeat split. lia.
Qed.

Lemma rate_limit_check_below w :
  request_count w < RATE_LIMIT -> rate_limit_check w = w.
Proof.
  intros Hc. unfold rate_limit_check.
  destruct (Z.leb_spec RATE_LIMIT (request_count w)); [lia|reflexivity].
Qed.

(** One successful turn of the loop: the cursor, if any, is stored in the
    parameters, the page is requested and counted, and its batch is yielded. *)
Lemma request_page_success E url l full c w page batch :
  (forall req, respond E (List.length (sent w)) req = page_response page) ->
  has_batch full page batch ->
  request_page E url l full c w =
    let w1 := if truthy c then setitem l "start" c w else w in
    (Yield batch (Suspended url l full (JObj page)),
     set_rate (request_count w1 + 1) (rate_limit_start w1)
       (set_time (now w1 + latency E (List.length (sent w1)))
          (log_request (mk_request url (hget l (heap w1))) w1))).
Proof.
  intros Hr Hb. unfold request_page.
  assert (Hs : List.length (sent (if truthy c then setitem l "start" c w else w))
               = List.length (sent w)) by (destruct (truthy c); reflexivity).
  cbv zeta. rewrite Hs, Hr. unfold page_response. simpl.
  unfold has_batch, batch_of in Hb. destruct full.
  - inversion Hb. reflexivity.
  - simpl. rewrite Hb. reflexivity.
Qed.

(** A turn of the loop that meets an HTTP error status. *)
Lemma request_page_error E url l full c w st body :
  (forall req, respond E (List.length (sent w)) req = Response st body) ->
  is_http_error st = true ->
  exists w',
    request_page E url l full c w =
      (if st =? 404 then Stop else Throw (HTTPError st), w')
    /\ List.length (sent w') = S (List.length (sent w))
    /\ request_count w' = request_count w
    /\ sleeps w' = sleeps w /\ posted w' = posted w /\ upserts w' = upserts w.
Proof.
  intros Hr He. unfold request_page.
  assert (Hs : sent (if truthy c then setitem l "start" c w else w) = sent w)
    by (destruct (truthy c); reflexivity).
  cbv zeta. rewrite Hs, Hr, He.
  eexists. split.
  - destruct (st =? 404); reflexivity.
  - simpl. rewrite Hs, length_app. simpl.
    destruct (truthy c); simpl; repeat split; lia.
Qed.

Lemma next_suspended E url l full p w :
  next E (Suspended url l full (JObj p)) w =
  if truthy (cursor p) then request_page E url l full (cursor p) w
  else (Stop, w).
Proof.
  simpl. unfold cursor. destruct (dict_get "nextPageStart" p); reflexivity.
Qed.

(** The set-up before the loop: the dictionary the loop works on holds the
    caller's parameters and the page size, and nothing has been sent. *)
Lemma setup_params params ps w :
  exists l w3,
    (let '(l', w2) := params_or_new params (rate_limit_check w) in
     (l', setitem l' "limit" (JNum ps) w2)) = (l, w3)
    /\ (l < List.length (heap w3))%nat
    /\ hget l (heap w3) = dict_set "limit" (JNum ps) (caller_params params w)
    /\ sent w3 = sent w
    /\ request_count w3 = request_count (rate_limit_check w)
    /\ rate_limit_start w3 = rate_limit_start (rate_limit_check w)
    /\ sleeps w3 = sleeps (rate_limit_check w)
    /\ posted w3 = posted w
    /\ upserts w3 = upserts w.
Proof.
  pose proof (rate_limit_check_heap w) as Hh.
  pose proof (rate_limit_check_sent w) as Hs.
  pose proof (rate_limit_check_posted w) as Hp.
  pose proof (rate_limit_check_upserts w) as Hu.
  set (w1 := rate_limit_check w) in *.
  assert (Hfresh : exists l w3,
    (let '(l', w2) := alloc [] w1 in (l', setitem l' "limit" (JNum ps) w2))
      = (l, w3)
    /\ (l < List.length (heap w3))%nat
    /\ hget l (heap w3) = dict_set "limit" (JNum ps) []
    /\ sent w3 = sent w /\ request_count w3 = request_count w1
    /\ rate_limit_start w3 = rate_limit_start w1
    /\ sleeps w3 = sleeps w1 /\ posted w3 = posted w /\ upserts w3 = upserts w).
  { eexists _, _. split; [reflexivity|]. simpl.
    rewrite hset_length, length_app. simpl.
    repeat split; auto; try lia.
    rewrite hget_hset by (rewrite length_app; simpl; lia).
    now rewrite hget_alloc. }
  unfold params_or_new, caller_params. rewrite Hh.
  destruct params as [l0|]; [|exact Hfresh].
  destruct (truthy (JObj (hget l0 (heap w)))) eqn:Ht; [|exact Hfresh].
  apply hget_truthy_in_range in Ht.
  eexists _, _. split; [reflexivity|]. simpl. rewrite hset_length, Hh.
  repeat split; auto. now rewrite hget_hset.
Qed.

Section Prefix.

Variable E : env.
Variables (url : string) (l : nat) (full : bool).

(** From a generator suspended on page [p]: as long as the pages report a
    cursor, the following pages [rest] are requested one by one, each with the
    cursor of its predecessor, and their batches are yielded in order; the
    generator is then suspended on the last of them. *)
Lemma drain_prefix : forall rest p w bs d,
  Forall (fun q => truthy (cursor q) = true) (removelast (p :: rest)) ->
  serves E (List.length (sent w)) (map page_response rest) ->
  Forall2 (has_batch full) rest bs ->
  (l < List.length (heap w))%nat ->
  (forall v, dict_set "start" v (hget l (heap w)) = dict_set "start" v d) ->
  exists w',
    (forall fuel,
       drain (List.length rest + fuel) E (Suspended url l full (JObj p)) w =
       match drain fuel E (Suspended url l full (JObj (last rest p))) w' with
       | Some (vs, r, w'') => Some (bs ++ vs, r, w'')
       | None => None
       end)
    /\ sent w' = sent w ++ map (with_start url d) (removelast (p :: rest))
    /\ (l < List.length (heap w'))%nat
    /\ (forall v, dict_set "start" v (hget l (heap w')) = dict_set "start" v d)
    /\ request_count w' = request_count w + Z.of_nat (List.length rest)
    /\ rate_limit_start w' = rate_limit_start w
    /\ sleeps w' = sleeps w
    /\ posted w' = posted w
    /\ upserts w' = upserts w.
Proof.
  induction rest as [|q rest IH]; intros p w bs d Hc Hs Hb Hl Hd.
  - inversion Hb; subst. exists w. simpl. repeat split; auto.
    + intros fuel. destruct (drain fuel E _ w) as [[[vs r] w'']|]; reflexivity.
    + now rewrite app_nil_r.
    + lia.
  - inversion Hb as [|? b ? bs' Hq Hb']; subst.
    apply serves_cons in Hs as [Hr Hs].
    change (removelast (p :: q :: rest))
      with (p :: removelast (q :: rest)) in Hc |- *.
    inversion Hc as [|? ? Hp Hc']; subst.
    pose (w1 := setitem l "start" (cursor p) w).
    pose (w2 := set_rate (request_count w1 + 1) (rate_limit_start w1)
       (set_time (now w1 + latency E (List.length (sent w1)))
          (log_request (mk_request url (hget l (heap w1))) w1))).
    assert (Hstep : next E (Suspended url l full (JObj p)) w
                    = (Yield b (Suspended url l full (JObj q)), w2)).
    { rewrite next_suspended, Hp.
      rewrite (request_page_success _ _ _ _ _ _ q b Hr Hq).
      cbv zeta. rewrite Hp. reflexivity. }
    assert (Hh1 : hget l (heap w1) = dict_set "start" (cursor p) d).
    { unfold w1, setitem. simpl. rewrite hget_hset by auto. apply Hd. }
    destruct (IH q w2 bs' d Hc')
      as (w' & Hdr & Hsent & Hl' & Hd' & Hcnt & Hst & Hsl & Hpo & Hup).
    + simpl. rewrite length_app. simpl.
      now replace (List.length (sent w) + 1)%nat
        with (S (List.length (sent w))) by lia.
    + assumption.
    + simpl. now rewrite hset_length.
    + intros v. change (heap w2) with (heap w1). rewrite Hh1.
      apply dict_set_set.
    + exists w'. repeat split; auto.
      * intros fuel. change (List.length (q :: rest) + fuel)%nat
          with (S (List.length rest + fuel)).
        cbn [drain]. rewrite Hstep. rewrite Hdr.
        rewrite (last_cons rest q p).
        destruct (drain fuel E _ w') as [[[vs r] w'']|]; reflexivity.
      * rewrite Hsent. simpl. rewrite <- app_assoc. simpl.
        unfold with_start at 2. rewrite <- Hh1. reflexivity.
      * rewrite Hcnt. simpl. lia.
Qed.

End Prefix.

(** The same from the call itself: the first request carries the caller's
    parameters and the page size, and the rate-limit check has run once. *)
Lemma drain_fresh_prefix E path params ps full p rest b bs w :
  Forall (fun q => truthy (cursor q) = true) (removelast (p :: rest)) ->
  serves E (List.length (sent w)) (map page_response (p :: rest)) ->
  Forall2 (has_batch full) (p :: rest) (b :: bs) ->
  let url := api_url E path in
  let d0 := dict_set "limit" (JNum ps) (caller_params params w) in
  exists l w',
    (forall fuel,
       drain (S (List.length rest + fuel)) E
         (get_paginated_resource path params ps full) w =
       match drain fuel E (Suspended url l full (JObj (last rest p))) w' with
       | Some (vs, r, w'') => Some (b :: bs ++ vs, r, w'')
       | None => None
       end)
    /\ sent w' = sent w ++ mk_request url d0
                            :: map (with_start url d0) (removelast (p :: rest))
    /\ (l < List.length (heap w'))%nat
    /\ (forall v, dict_set "start" v (hget l (heap w')) = dict_set "start" v d0)
    /\ request_count w' = request_count (rate_limit_check w)
                          + Z.of_nat (List.length (p :: rest))
    /\ sleeps w' = sleeps (rate_limit_check w)
    /\ posted w' = posted w
    /\ upserts w' = upserts w.
Proof.
  intros Hc Hs Hb url d0.
  inversion Hb as [|? ? ? ? Hp Hb']; subst.
  apply serves_cons in Hs as [Hr Hs].
  destruct (setup_params params ps w)
    as (l & w3 & Hsetup & Hl & Hd & Hsent & Hcnt & Hst & Hsl & Hpo & Hup).
  rewrite <- Hsent in Hr.
  pose proof (request_page_success E url l full JNull w3 p b Hr Hp) as Hstep.
  simpl in Hstep.
  set (w4 := set_rate _ _ _) in Hstep.
  destruct (drain_prefix E url l full rest p w4 bs d0 Hc)
    as (w' & Hdr & Hsent' & Hl' & Hd' & Hcnt' & Hst' & Hsl' & Hpo' & Hup').
  - unfold w4. simpl. rewrite length_app, Hsent. simpl.
    now replace (List.length (sent w) + 1)%nat
      with (S (List.length (sent w))) by lia.
  - assumption.
  - exact Hl.
  - intros v. change (heap w4) with (heap w3). now rewrite Hd.
  - exists l, w'. repeat split; auto.
    + intros fuel. cbn [drain]. unfold get_paginated_resource.
      cbn [next].
      change (BITBUCKET_API_URL E ++ "/rest/api/1.0/" ++ path)%string with url.
      destruct (params_or_new params (rate_limit_check w)) as [l' w2] eqn:Hpn.
      inversion Hsetup; subst l' w3. rewrite Hstep, Hdr.
      destruct (drain fuel E _ w') as [[[vs r] w'']|]; reflexivity.
    + rewrite Hsent'. unfold w4. simpl. rewrite Hsent, Hd, <- app_assoc.
      reflexivity.
    + rewrite Hcnt'. unfold w4. simpl. rewrite Hcnt.
      rewrite Zpos_P_of_succ_nat. lia.
    + rewrite Hsl'. unfold w4. simpl. exact Hsl.
    + rewrite Hpo'. unfold w4. simpl. exact Hpo.
    + rewrite Hup'. unfold w4. simpl. exact Hup.
Qed.

Lemma next_http_error E g w st body :
  will_request g = true ->
  (forall req, respond E (List.length (sent w)) req = Response st body) ->
  is_http_error st = true ->
  exists w',
    next E g w = (if st =? 404 then Stop else Throw (HTTPError st), w')
    /\ List.length (sent w') = S (List.length (sent w))
    /\ posted w' = posted w /\ upserts w' = upserts w.
Proof.
  intros Hg Hr He. destruct g as [path params ps full|url l full pg|];
    [| |discriminate].
  - destruct (setup_params params ps w)
      as (l & w3 & Hsetup & Hl & Hd & Hsent & Hcnt & Hst & Hsl & Hpo & Hup).
    rewrite <- Hsent in Hr.
    destruct (request_page_error E (api_url E path) l full JNull w3 st body Hr He)
      as (w' & Hrp & Hlen & _ & _ & Hpo' & Hup').
    exists w'. cbn [next].
    destruct (params_or_new params (rate_limit_check w)) as [l' w2].
    inversion Hsetup; subst. split; [exact Hrp|].
    rewrite Hlen, Hpo', Hup', Hsent. auto.
  - simpl in Hg. cbn [next].
    destruct (get pg "nextPageStart" JNull) as [c|]; [|discriminate].
    rewrite Hg.
    destruct (request_page_error E url l full c w st body Hr He)
      as (w' & Hrp & Hlen & _ & _ & Hpo' & Hup').
    exists w'. auto.
Qed.

(** C3. When a page request fails with HTTP status 404 the sequence ends
    there without an error (so a fetch whose first request returns 404 yields
    nothing), and when it fails with any other HTTP error status the error
    reaches the consumer of the sequence. *)
Theorem http_error_policy E g w st body :
  will_request g = true ->
  (forall req, respond E (List.length (sent w)) req = Response st body) ->
  is_http_error st = true ->
  exists w',
    next E g w = (if st =? 404 then Stop else Throw (HTTPError st), w')
    /\ (forall fuel, drain (S fuel) E g w = Some ([], on_http_error st tt, w'))
    /\ (forall (A : Type) (loop_body : json -> A -> world -> result A * world)
               (acc : A) fuel,
          for_each (S fuel) E g loop_body acc w
          = Some (on_http_error st acc, w')).
Proof.
  intros Hg Hr He.
  destruct (next_http_error E g w st body Hg Hr He) as (w' & Hn & _).
  exists w'. split; [exact Hn|]. unfold on_http_error. split.
  - intros fuel. cbn [drain]. rewrite Hn. destruct (st =? 404); reflexivity.
  - intros A loop_body acc fuel. cbn [for_each]. rewrite Hn.
    destruct (st =? 404); reflexivity.
Qed.

Lemma http_error_policy_witness :
  (exists w',
     drain 1 (scripted [Response 404 None])
       (get_paginated_resource "projects/PRJ/repos" None 25 false)
       (initial_world 0) = Some ([], Ok tt, w'))
  /\ (exists w',
        drain 1 (scripted [Response 503 None])
          (get_paginated_resource "projects/PRJ/repos" None 25 false)
          (initial_world 0) = Some ([], Raise (HTTPError 503), w')).
Proof.
  split.
  - destruct (http_error_policy (scripted [Response 404 None])
                (get_paginated_resource "projects/PRJ/repos" None 25 false)
                (initial_world 0) 404 None)
      as (w' & _ & Hd & _); [reflexivity|reflexivity|reflexivity|].
    exists w'. apply (Hd O).
  - destruct (http_error_policy (scripted [Response 503 None])
                (get_paginated_resource "projects/PRJ/repos" None 25 false)
                (initial_world 0) 503 None)
      as (w' & _ & Hd & _); [reflexivity|reflexivity|reflexivity|].
    exists w'. apply (Hd O).
Defined.

Lemma NoDup_starts url d0 (pages : list dict) :
  dict_get "start" d0 = None ->
  NoDup (map cursor pages) ->
  NoDup (map (fun r => dict_get "start" (req_params r))
           (mk_request url d0 :: map (with_start url d0) pages)).
Proof.
  intros H0 Hn. simpl. rewrite H0. rewrite map_map. simpl.
  assert (Heq : map (fun x => dict_get "start" (dict_set "start" (cursor x) d0))
                  pages
                = map Some (map cursor pages)).
  { rewrite map_map. apply map_ext. intros q. apply dict_get_set_same. }
  rewrite Heq. constructor.
  - intros Hin. apply in_map_iff in Hin as (x & Hx & _). discriminate.
  - clear -Hn. induction Hn as [|c cs Hc Hn IH]; simpl; constructor; auto.
    intros Hin. apply in_map_iff in Hin as (x & Hx & Hin).
    now inversion Hx; subst.
Qed.

(** C2 (amended). For a finite sequence of successful pages of which every
    page but the last reports a truthy (non-zero) [nextPageStart] and the last
    reports none, the fetcher yields exactly the pages' batches ([values], or
    the envelopes in full-response mode) in order and then stops, having sent
    one request per page: the first with the caller's parameters and the page
    size, each later one with [start] set to the cursor its predecessor
    reported.  A cursor is therefore requested as often as the server reports
    it: never twice when the reported cursors are pairwise distinct and the
    caller's parameters hold no [start]. *)
Theorem pagination_yields_every_page E path params page_size full
    init final batches w fuel :
  Forall (fun q => truthy (cursor q) = true) init ->
  truthy (cursor final) = false ->
  Forall2 (has_batch full) (init ++ [final]) batches ->
  serves E (List.length (sent w)) (map page_response (init ++ [final])) ->
  (List.length init + 1 < fuel)%nat ->
  let url := api_url E path in
  let d0 := dict_set "limit" (JNum page_size) (caller_params params w) in
  let requests := mk_request url d0 :: map (with_start url d0) init in
  exists w',
    drain fuel E (get_paginated_resource path params page_size full) w
      = Some (batches, Ok tt, w')
    /\ sent w' = sent w ++ requests
    /\ (dict_get "start" (caller_params params w) = None ->
        NoDup (map cursor init) ->
        NoDup (map (fun r => dict_get "start" (req_params r)) requests)).
Proof.
  intros Hc Hlast Hb Hs Hfuel url d0 requests.
  destruct (init ++ [final]) as [|p rest] eqn:Hpages;
    [now destruct init|].
  assert (Hinit : removelast (p :: rest) = init)
    by (rewrite <- Hpages; apply removelast_last).
  assert (Hfinal : last rest p = final).
  { rewrite <- (last_cons rest p final), <- Hpages. apply last_last. }
  assert (Hlen : List.length rest = List.length init).
  { rewrite <- Hinit. symmetry. apply removelast_cons_length. }
  destruct batches as [|b bs]; [inversion Hb|].
  rewrite <- Hinit in Hc.
  destruct (drain_fresh_prefix E path params page_size full p rest b bs w
              Hc Hs Hb) as (l & w' & Hdr & Hsent & _).
  exists w'. repeat split.
  - replace fuel with (S (List.length rest + S (fuel - List.length rest - 2)))
      by lia.
    rewrite Hdr. cbn [drain]. rewrite next_suspended, Hfinal, Hlast.
    now rewrite app_nil_r.
  - rewrite Hsent, Hinit. reflexivity.
  - intros H0 Hn. apply NoDup_starts; auto.
    unfold d0. rewrite dict_get_set_other by reflexivity. exact H0.
Qed.

Lemma pagination_yields_every_page_witness :
  exists w',
    drain 4
      (scripted [page_response (page [JNum 1] (Some 25));
                 page_response (page [JNum 2] (Some 50));
                 page_response (page [JNum 3] None)])
      (get_paginated_resource "projects" None 25 false) (initial_world 0)
    = Some ([JArr [JNum 1]; JArr [JNum 2]; JArr [JNum 3]], Ok tt, w')
    /\ starts w' = [None; Some (JNum 25); Some (JNum 50)].
Proof.
  destruct (pagination_yields_every_page
              (scripted [page_response (page [JNum 1] (Some 25));
                         page_response (page [JNum 2] (Some 50));
                         page_response (page [JNum 3] None)])
              "projects" None 25 false
              [page [JNum 1] (Some 25); page [JNum 2] (Some 50)]
              (page [JNum 3] None)
              [JArr [JNum 1]; JArr [JNum 2]; JArr [JNum 3]]
              (initial_world 0) 4)
    as (w' & Hd & Hs & _).
  - repeat constructor.
  - reflexivity.
  - repeat constructor.
  - apply serves_scripted.
  - simpl. lia.
  - exists w'. split; [exact Hd|]. unfold starts. rewrite Hs. reflexivity.
Defined.

(** C2, as stated, fails: when the server reports the cursor 5 on two
    successive pages, the fetcher asks for [start=5] twice. *)
Lemma pagination_repeats_a_repeated_cursor :
  match drain 4
          (scripted [page_response (page [JNum 1] (Some 5));
                     page_response (page [JNum 2] (Some 5));
                     page_response (page [JNum 3] None)])
          (get_paginated_resource "projects" None 25 false) (initial_world 0)
  with
  | Some (batches, r, w) => (batches, r, starts w)
  | None => ([], Ok tt, [])
  end
  = ([JArr [JNum 1]; JArr [JNum 2]; JArr [JNum 3]], Ok tt,
     [None; Some (JNum 5); Some (JNum 5)]).
Proof. reflexivity. Qed.

(** A page that reports the cursor 0 ends the sequence: the page the server
    holds after it is never requested. *)
Lemma pagination_stops_at_zero_cursor :
  match drain 4
          (scripted [page_response (page [JNum 1] (Some 0));
                     page_response (page [JNum 2] None)])
          (get_paginated_resource "projects" None 25 false) (initial_world 0)
  with
  | Some (batches, r, w) => (batches, r, starts w)
  | None => ([], Ok tt, [])
  end
  = ([JArr [JNum 1]], Ok tt, [None]).
Proof. reflexivity. Qed.

(** Termination is the server's doing: when every page reports a cursor, no
    amount of fuel exhausts the sequence. *)
Lemma pagination_never_stops_on_endless_cursor fuel path params page_size w :
  drain fuel endless (get_paginated_resource path params page_size false) w
  = None.
Proof.
  assert (Hs : forall fuel url l w,
             drain fuel endless
               (Suspended url l false (JObj (page [] (Some 25)))) w = None).
  { clear. induction fuel as [|fuel IH]; intros url l w; [reflexivity|].
    cbn [drain]. rewrite next_suspended.
    change (truthy (cursor (page [] (Some 25)))) with true. cbv iota.
    rewrite (request_page_success endless url l false _ w
               (page [] (Some 25)) (JArr []));
      [|reflexivity|reflexivity].
    cbv beta iota zeta. now rewrite IH. }
  destruct fuel as [|fuel]; [reflexivity|].
  cbn [drain]. unfold get_paginated_resource. cbn [next].
  destruct (params_or_new params (rate_limit_check w)) as [l w2].
  rewrite (request_page_success endless _ l false JNull _
             (page [] (Some 25)) (JArr []));
    [|reflexivity|reflexivity].
  cbv beta iota zeta. now rewrite Hs.
Qed.

(** C10. When the request that follows one or more successful pages is
    answered with HTTP 404, the fetcher has yielded the batch of every page
    obtained before it and ends without an error. *)
Theorem not_found_after_pages_keeps_batches E path params page_size full
    pages batches body w fuel :
  pages <> [] ->
  Forall (fun q => truthy (cursor q) = true) pages ->
  Forall2 (has_batch full) pages batches ->
  serves E (List.length (sent w))
    (map page_response pages ++ [Response 404 body]) ->
  (List.length pages < fuel)%nat ->
  exists w',
    drain fuel E (get_paginated_resource path params page_size full) w
      = Some (batches, Ok tt, w')
    /\ List.length (sent w')
       = (List.length (sent w) + List.length pages + 1)%nat.
Proof.
  intros Hne Hc Hb Hs Hfuel.
  destruct pages as [|p rest]; [congruence|].
  destruct batches as [|b bs]; [inversion Hb|].
  apply serves_app in Hs as [Hs H404].
  assert (Hc' : Forall (fun q => truthy (cursor q) = true)
                  (removelast (p :: rest))).
  { rewrite (app_removelast_last p (l := p :: rest)) in Hc by discriminate.
    apply Forall_app in Hc. tauto. }
  destruct (drain_fresh_prefix E path params page_size full p rest b bs w
              Hc' Hs Hb) as (l & w' & Hdr & Hsent & _).
  assert (Hlast : truthy (cursor (last rest p)) = true).
  { rewrite Forall_forall in Hc. apply Hc, last_in_cons. }
  assert (Hr : forall req,
             respond E (List.length (sent w')) req = Response 404 body).
  { intros req. rewrite Hsent, length_app. cbn [List.length].
    rewrite length_map, removelast_cons_length.
    specialize (H404 O (Response 404 body) eq_refl req).
    rewrite length_map, Nat.add_0_r in H404. exact H404. }
  destruct (next_http_error E
              (Suspended (api_url E path) l full (JObj (last rest p)))
              w' 404 body) as (w'' & Hn & Hlen & _); auto.
  { simpl. unfold cursor in Hlast.
    destruct (dict_get "nextPageStart" (last rest p)); auto. }
  exists w''. split.
  - simpl in Hfuel.
    replace fuel with (S (List.length rest + S (fuel - List.length rest - 2)))
      by lia.
    rewrite Hdr. cbn [drain]. rewrite Hn. simpl. now rewrite app_nil_r.
  - rewrite Hlen, Hsent, length_app. cbn [List.length].
    rewrite length_map, removelast_cons_length. lia.
Qed.

Lemma not_found_after_pages_keeps_batches_witness :
  exists w',
    drain 3
      (scripted [page_response (page [JNum 1] (Some 25));
                 page_response (page [JNum 2] (Some 50));
                 Response 404 None])
      (get_paginated_resource "projects" None 25 false) (initial_world 0)
    = Some ([JArr [JNum 1]; JArr [JNum 2]], Ok tt, w')
    /\ List.length (sent w') = 3%nat.
Proof.
  apply (not_found_after_pages_keeps_batches
           (scripted [page_response (page [JNum 1] (Some 25));
                      page_response (page [JNum 2] (Some 50));
                      Response 404 None])
           "projects" None 25 false
           [page [JNum 1] (Some 25); page [JNum 2] (Some 50)]
           [JArr [JNum 1]; JArr [JNum 2]] None (initial_world 0) 3).
  - discriminate.
  - repeat constructor.
  - repeat constructor.
  - apply serves_scripted.
  - simpl. lia.
Defined.

(* ================================================================== *)
(** ** Rate limiting                                                   *)
(* ================================================================== *)

(** Within one call the count grows by one per page and the check is not
    run again. *)
Lemma count_grows_unchecked E path params page_size full init final batches
    w fuel w' :
  Forall (fun q => truthy (cursor q) = true) init ->
  Forall2 (has_batch full) (init ++ [final]) batches ->
  serves E (List.length (sent w)) (map page_response (init ++ [final])) ->
  drain fuel E (get_paginated_resource path params page_size full) w
    = Some (batches, Ok tt, w') ->
  truthy (cursor final) = false ->
  request_count w' = request_count (rate_limit_check w)
                     + Z.of_nat (List.length init) + 1
  /\ sleeps w' = sleeps (rate_limit_check w).
Proof.
  intros Hc Hb Hs Hd Hlast.
  destruct (init ++ [final]) as [|p rest] eqn:Hpages; [now destruct init|].
  assert (Hinit : removelast (p :: rest) = init)
    by (rewrite <- Hpages; apply removelast_last).
  assert (Hfinal : last rest p = final).
  { rewrite <- (last_cons rest p final), <- Hpages. apply last_last. }
  assert (Hlen : List.length rest = List.length init).
  { rewrite <- Hinit. symmetry. apply removelast_cons_length. }
  destruct batches as [|b bs]; [inversion Hb|].
  rewrite <- Hinit in Hc.
  destruct (drain_fresh_prefix E path params page_size full p rest b bs w
              Hc Hs Hb) as (l & w1 & Hdr & _ & _ & _ & Hcnt & Hsl & _).
  assert (Hrun : forall k,
             drain (S (List.length rest + S k)) E
               (get_paginated_resource path params page_size full) w
             = Some (b :: bs, Ok tt, w1)).
  { intros k. rewrite Hdr. cbn [drain].
    rewrite next_suspended, Hfinal, Hlast. now rewrite app_nil_r. }
  assert (Hmono : forall n g w0 res,
             drain n E g w0 = Some res ->
             forall m, (n <= m)%nat -> drain m E g w0 = Some res).
  { clear. induction n as [|n IH]; intros g w0 res H m Hm; [discriminate|].
    destruct m as [|m]; [lia|]. cbn [drain] in *.
    destruct (next E g w0) as [[v g1| |e] w1]; auto.
    destruct (drain n E g1 w1) as [res1|] eqn:Hd1; [|discriminate].
    rewrite (IH _ _ _ Hd1 m) by lia. exact H. }
  pose proof (Hmono _ _ _ _ Hd (fuel + S (List.length rest + 1))%nat
                ltac:(lia)) as H1.
  pose proof (Hmono _ _ _ _ (Hrun O) (fuel + S (List.length rest + 1))%nat
                ltac:(lia)) as H2.
  rewrite H1 in H2. inversion H2; subst w'.
  rewrite Hcnt, Hsl. cbn [List.length]. rewrite Hlen. split; [lia|reflexivity].
Qed.

(** C1 (the code departs from the claim). Started with its counters at zero,
    one call that walks a listing of 1001 pages sends 1001 requests in the
    same window: the count passes [RATE_LIMIT = 1000] and no wait takes
    place, because the check stands before the loop and not in it. *)
Theorem rate_limit_is_not_checked_between_pages :
  match drain (Z.to_nat 1002) (long_listing 1001)
          (get_paginated_resource "admin/users" None 25 false)
          (initial_world 0)
  with
  | Some (batches, r, w) =>
      (r, Z.of_nat (List.length batches), Z.of_nat (List.length (sent w)),
       request_count w, sleeps w, now w - rate_limit_start w)
  | None => (Raise ConnectionError, 0, 0, 0, [], 0)
  end
  = (Ok tt, 1001, 1001, 1001, [], 0).
Proof. vm_compute. reflexivity. Qed.

(* ================================================================== *)
(** ** The first request of a call                                     *)
(* ================================================================== *)

(** C4 (the code departs from the claim). [get_repository_pull_requests]
    hands the same dictionary to every call.  After the pull requests of
    the first repository took two pages, the first request for the second
    repository still carries [start=25]. *)
Theorem stale_start_in_first_request :
  match get_repository_pull_requests 3 two_repos
          (JArr [sample_repo "alpha"; sample_repo "beta"]) (initial_world 0)
  with
  | Some (r, w) =>
      (r, map (fun q => (req_url q, dict_get "start" (req_params q))) (sent w))
  | None => (Raise ConnectionError, [])
  end
  = (Ok tt,
     [("https://bitbucket.example/rest/api/1.0/projects/PRJ/repos/alpha/pull-requests",
       None);
      ("https://bitbucket.example/rest/api/1.0/projects/PRJ/repos/alpha/pull-requests",
       Some (JNum 25));
      ("https://bitbucket.example/rest/api/1.0/projects/PRJ/repos/beta/pull-requests",
       Some (JNum 25))]).
Proof. vm_compute. reflexivity. Qed.

(* ================================================================== *)
(** ** Consumers of the sequence                                       *)
(* ================================================================== *)

(** A loop whose body only computes sees the batches the generator yields,
    in order, and ends the way the generator ends. *)
Lemma for_each_pure {A : Type} (f : json -> A -> result A) E :
  forall fuel g w vs r w' acc acc',
    drain fuel E g w = Some (vs, r, w') ->
    foldM f vs acc = Ok acc' ->
    for_each fuel E g (fun v a w0 => (f v a, w0)) acc w
    = Some (match r with Ok _ => Ok acc' | Raise e => Raise e end, w').
Proof.
  induction fuel as [|fuel IH]; intros g w vs r w' acc acc' Hd Hf;
    [discriminate|].
  cbn [drain] in Hd. cbn [for_each].
  destruct (next E g w) as [[v g1| |e] w1].
  - destruct (drain fuel E g1 w1) as [[[vs1 r1] w2]|] eqn:Hd1; [|discriminate].
    inversion Hd; subst. simpl in Hf.
    destruct (f v acc) as [acc1|e]; [|discriminate]. simpl in Hf.
    eapply IH; eauto.
  - inversion Hd; subst. simpl in Hf. inversion Hf. reflexivity.
  - inversion Hd; subst. reflexivity.
Qed.

(** Fetching neither creates webhooks nor sends entities. *)
Lemma request_page_frame E url l full c w :
  posted (snd (request_page E url l full c w)) = posted w
  /\ upserts (snd (request_page E url l full c w)) = upserts w.
Proof.
  unfold request_page. cbv zeta.
  assert (Hp : posted (if truthy c then setitem l "start" c w else w) = posted w)
    by (destruct (truthy c); reflexivity).
  assert (Hu : upserts (if truthy c then setitem l "start" c w else w)
               = upserts w)
    by (destruct (truthy c); reflexivity).
  repeat match goal with
         | |- context [match ?x with _ => _ end] => destruct x
         end; simpl; auto.
Qed.

Lemma next_frame E g w :
  posted (snd (next E g w)) = posted w
  /\ upserts (snd (next E g w)) = upserts w.
Proof.
  destruct g as [path params ps full|url l full pg|]; cbn [next].
  - destruct (setup_params params ps w)
      as (l & w3 & Hsetup & _ & _ & _ & _ & _ & _ & Hpo & Hup).
    destruct (params_or_new params (rate_limit_check w)) as [l' w2].
    inversion Hsetup; subst.
    destruct (request_page_frame E (api_url E path) l full JNull
                (setitem l "limit" (JNum ps) w2)) as [H1 H2].
    unfold api_url in *. rewrite H1, H2. auto.
  - destruct (get pg "nextPageStart" JNull) as [c|e]; [|auto].
    destruct (truthy c); [apply request_page_frame|auto].
  - auto.
Qed.

Lemma drain_frame E : forall fuel g w vs r w',
  drain fuel E g w = Some (vs, r, w') ->
  posted w' = posted w /\ upserts w' = upserts w.
Proof.
  induction fuel as [|fuel IH]; intros g w vs r w' Hd; [discriminate|].
  cbn [drain] in Hd. pose proof (next_frame E g w) as [Hp Hu].
  destruct (next E g w) as [[v g1| |e] w1]; simpl in Hp, Hu.
  - destruct (drain fuel E g1 w1) as [[[vs1 r1] w2]|] eqn:Hd1; [|discriminate].
    inversion Hd; subst. apply IH in Hd1 as [H1 H2]. split; congruence.
  - inversion Hd; subst. auto.
  - inversion Hd; subst. auto.
Qed.

(* ================================================================== *)
(** ** Project webhooks                                                *)
(* ================================================================== *)

Lemma select_matching_filter webhook_url : forall webhooks acc,
  Forall has_url webhooks ->
  select_matching webhook_url webhooks acc
  = Ok (acc ++ filter (registered_at webhook_url) webhooks).
Proof.
  induction webhooks as [|wh whs IH]; intros acc Hu; simpl.
  - now rewrite app_nil_r.
  - inversion Hu as [|? ? [u Hwh] Hu']; subst.
    unfold registered_at. rewrite Hwh. simpl. rewrite IH by assumption.
    destruct (equals_str u webhook_url); [|reflexivity].
    now rewrite <- app_assoc.
Qed.

Lemma matching_fold webhook_url : forall batches groups acc,
  Forall2 lists batches groups ->
  Forall has_url (List.concat groups) ->
  foldM (fun batch acc0 =>
           webhooks <- iter batch ;; select_matching webhook_url webhooks acc0)
        batches acc
  = Ok (acc ++ filter (registered_at webhook_url) (List.concat groups)).
Proof.
  induction batches as [|b bs IH]; intros groups acc Hl Hu;
    inversion Hl as [|? ws ? gs Hb Hl']; subst; simpl.
  - now rewrite app_nil_r.
  - simpl in Hu. apply Forall_app in Hu as [Hu1 Hu2].
    unfold lists in Hb. rewrite Hb. simpl.
    rewrite select_matching_filter by assumption. simpl.
    rewrite IH with (groups := gs) by assumption.
    now rewrite filter_app, app_assoc.
Qed.

(** C6. Provisioning with a sink webhook URL, once the project's existing
    webhooks have been listed: if one of them is registered at the sink URL,
    the first such webhook is returned and nothing is created; if none is,
    exactly one creation call is issued. *)
Theorem project_webhook_is_reused_or_created_once fuel E project_key url
    events w batches groups w1 :
  drain fuel E
    (get_paginated_resource ("projects/" ++ project_key ++ "/webhooks")%string
       None 25 false) w = Some (batches, Ok tt, w1) ->
  Forall2 lists batches groups ->
  Forall has_url (List.concat groups) ->
  exists r w2,
    get_or_create_project_webhook fuel E project_key (Some url) events w
      = Some (r, w2)
    /\ match find (registered_at url) (List.concat groups) with
       | Some existing => r = Ok existing /\ posted w2 = posted w
       | None =>
           posted w2
           = posted w
             ++ [(webhooks_url E project_key, webhook_data E url events)]
       end.
Proof.
  intros Hd Hl Hu.
  pose proof (matching_fold url batches groups [] Hl Hu) as Hf.
  pose proof (for_each_pure _ E fuel _ w batches (Ok tt) w1 [] _ Hd Hf) as Hfe.
  apply drain_frame in Hd as [Hpo _].
  unfold get_or_create_project_webhook, matching_body.
  rewrite Hfe. rewrite find_filter. simpl.
  destruct (filter (registered_at url) (List.concat groups))
    as [|existing others]; simpl.
  - unfold create_project_webhook.
    destruct (create_reply E _ _) as [st body|].
    + destruct (is_http_error st); [|destruct body];
        eexists _, _; (split; [reflexivity|]); simpl; now rewrite Hpo.
    + eexists _, _. split; [reflexivity|]. simpl. now rewrite Hpo.
  - eexists _, _. split; [reflexivity|]. auto.
Qed.

Lemma project_webhook_is_reused_or_created_once_witness :
  (exists w2,
     get_or_create_project_webhook 2 webhooks_with_match "PRJ" (Some sink_url)
       ["pr:opened"; "pr:merged"] (initial_world 0)
     = Some (Ok (sample_webhook 2 sink_url), w2)
     /\ posted w2 = [])
  /\ (exists r w2,
        get_or_create_project_webhook 2 webhooks_without_match "PRJ"
          (Some sink_url) ["pr:opened"; "pr:merged"] (initial_world 0)
        = Some (r, w2)
        /\ posted w2
           = [("https://bitbucket.example/rest/api/1.0/projects/PRJ/webhooks",
               webhook_data webhooks_without_match sink_url
                 ["pr:opened"; "pr:merged"])]).
Proof.
  split.
  - edestruct (project_webhook_is_reused_or_created_once 2 webhooks_with_match
                 "PRJ" sink_url ["pr:opened"; "pr:merged"] (initial_world 0)
                 [JArr [sample_webhook 1 "https://ci.example/build";
                        sample_webhook 2 sink_url]]
                 [[sample_webhook 1 "https://ci.example/build";
                   sample_webhook 2 sink_url]])
      as (r & w2 & Hrun & Hfound).
    + reflexivity.
    + repeat constructor.
    + repeat constructor; eexists; reflexivity.
    + simpl in Hfound. destruct Hfound as [Hr Hp]. subst r.
      exists w2. split; [exact Hrun|exact Hp].
  - edestruct (project_webhook_is_reused_or_created_once 2
                 webhooks_without_match "PRJ" sink_url
                 ["pr:opened"; "pr:merged"] (initial_world 0)
                 [JArr [sample_webhook 1 "https://ci.example/build"]]
                 [[sample_webhook 1 "https://ci.example/build"]])
      as (r & w2 & Hrun & Hnone).
    + reflexivity.
    + repeat constructor.
    + repeat constructor; eexists; reflexivity.
    + simpl in Hnone. exists r, w2. split; [exact Hrun|exact Hnone].
Defined.

(* ================================================================== *)
(** ** README and the repository entity                                *)
(* ================================================================== *)

Lemma terminated_app ts1 ts2 :
  terminated (ts1 ++ ts2) = (terminated ts1 ++ terminated ts2)%string.
Proof.
  induction ts1 as [|t ts1 IH]; simpl; [reflexivity|].
  now rewrite IH, !append_assoc.
Qed.

Lemma append_lines_terminated : forall lines texts acc,
  Forall2 line_text lines texts ->
  append_lines lines acc = Ok (acc ++ terminated texts)%string.
Proof.
  induction lines as [|line lines IH]; intros texts acc Hl;
    inversion Hl as [|? t ? ts Ht Hl']; subst; simpl.
  - now rewrite append_empty_r.
  - unfold line_text in Ht. rewrite Ht. simpl. rewrite (IH ts) by assumption.
    now rewrite !append_assoc.
Qed.

Lemma parse_page_lines pg texts :
  page_lines pg texts ->
  parse_repository_file_response pg = Ok (terminated texts).
Proof.
  intros (lines & Hg & Hl). unfold parse_repository_file_response.
  rewrite Hg. simpl. now rewrite (append_lines_terminated lines texts "").
Qed.

Lemma readme_fold : forall pages texts acc,
  Forall2 page_lines pages texts ->
  foldM (fun batch acc0 =>
           file_content <- parse_repository_file_response batch ;;
           Ok (acc0 ++ file_content)%string) pages acc
  = Ok (acc ++ terminated (List.concat texts))%string.
Proof.
  induction pages as [|pg pages IH]; intros texts acc Hp;
    inversion Hp as [|? ts ? tss Hpage Hp']; subst; simpl.
  - now rewrite append_empty_r.
  - rewrite (parse_page_lines _ _ Hpage). simpl.
    rewrite (IH tss) by assumption.
    now rewrite terminated_app, append_assoc.
Qed.

(** C7 (amended). The repository entity's [documentation] property is the
    [text] of every line of every fetched file-content page, in order, each
    followed by a newline character (a line without [text] counts as empty):
    the lines are newline-terminated, not newline-separated. *)
Theorem readme_is_newline_terminated_lines fuel E repo key slug w pages w1
    texts :
  (project <- getitem repo "project" ;; getitem project "key") = Ok key ->
  getitem repo "slug" = Ok slug ->
  drain fuel E
    (get_paginated_resource (readme_path E key slug) None 500 true) w
    = Some (pages, Ok tt, w1) ->
  Forall2 page_lines pages texts ->
  let documentation := terminated (List.concat texts) in
  get_repository_readme fuel E key slug w = Some (Ok documentation, w1)
  /\ repository_entity fuel E repo w
     = Some (repository_entity_with E repo documentation, w1)
  /\ forall entity,
       repository_entity_with E repo documentation = Ok entity ->
       property "documentation" entity = Ok (JStr documentation).
Proof.
  intros Hk Hs Hd Hp documentation.
  pose proof (readme_fold pages texts "" Hp) as Hf.
  pose proof (for_each_pure _ E fuel _ w pages (Ok tt) w1 "" _ Hd Hf) as Hfe.
  assert (Hr : get_repository_readme fuel E key slug w
               = Some (Ok documentation, w1)).
  { unfold get_repository_readme, readme_body. exact Hfe. }
  split; [exact Hr|]. split.
  - unfold repository_entity.
    destruct (getitem repo "project") as [project|]; [|discriminate].
    cbn [bind] in Hk |- *. rewrite Hk. cbn [bind]. rewrite Hs. cbn [bind].
    now rewrite Hr.
  - intros entity He. unfold repository_entity_with in He.
    repeat match type of He with
           | bind ?r _ = Ok _ =>
               destruct r; [cbn [bind] in He|discriminate]
           end.
    inversion He. reflexivity.
Qed.

Lemma readme_is_newline_terminated_lines_witness :
  exists entity w1,
    repository_entity 3 readme_server (sample_repo "alpha") (initial_world 0)
    = Some (Ok entity, w1)
    /\ property "documentation" entity
       = Ok (JStr ("# alpha" ++ newline ++ newline ++ "usage" ++ newline)%string).
Proof.
  edestruct (readme_is_newline_terminated_lines 3 readme_server
               (sample_repo "alpha") (JStr "PRJ") (JStr "alpha")
               (initial_world 0) readme_pages)
    with (texts := [["# alpha"; ""]; ["usage"]])
    as (_ & Hentity & Hdoc).
  - reflexivity.
  - reflexivity.
  - reflexivity.
  - repeat constructor; eexists; (split; [reflexivity|repeat constructor]).
  - eexists _, _. split; [exact Hentity|]. apply Hdoc. reflexivity.
Defined.

(** C7, as stated, fails: joining the texts with newlines leaves no newline
    after the last line, the code puts one there. *)
Lemma readme_is_not_newline_joined :
  match get_repository_readme 3 readme_server (JStr "PRJ") (JStr "alpha")
          (initial_world 0) with
  | Some (r, _) => r
  | None => Raise ConnectionError
  end
  = Ok ("# alpha" ++ newline ++ newline ++ "usage" ++ newline)%string
  /\ joined ["# alpha"; ""; "usage"]
     = ("# alpha" ++ newline ++ newline ++ "usage")%string.
Proof. split; reflexivity. Qed.

(* ================================================================== *)
(** ** Pull requests                                                   *)
(* ================================================================== *)

(** C9. In a mapped pull request the [participants] relation is the author's
    email address followed by the email address of every listed participant,
    in the order of the source array and as many times as listed. *)
Theorem participants_are_author_then_listed E pr entity :
  pullrequest_entity E pr = Ok entity ->
  exists author_email listed emails,
    (author <- get pr "author" JNull ;; user_field "emailAddress" author)
      = Ok author_email
    /\ (participants <- get pr "participants" (JArr []) ;; iter participants)
       = Ok listed
    /\ Forall2 (fun user email => user_field "emailAddress" user = Ok email)
         listed emails
    /\ List.length emails = List.length listed
    /\ relation "participants" entity = Ok (JArr (author_email :: emails)).
Proof.
  intros H. unfold pullrequest_entity in H. step_binds H.
  inversion H; subst; clear H.
  match goal with
  | He : user_field "emailAddress" _ = Ok ?e,
    Hi : iter _ = Ok ?items,
    Hm : mapM (user_field "emailAddress") ?items = Ok ?emails |- _ =>
      exists e, items, emails; cbn [bind]; rewrite He, Hi;
      apply mapM_Forall2 in Hm;
      repeat split; [exact Hm|symmetry; eapply Forall2_length; exact Hm]
  end.
Qed.

Lemma participants_are_author_then_listed_witness :
  exists author_email listed emails,
    (author <- get sample_pr "author" JNull ;;
     user_field "emailAddress" author) = Ok author_email
    /\ (participants <- get sample_pr "participants" (JArr []) ;;
        iter participants) = Ok listed
    /\ Forall2 (fun user email => user_field "emailAddress" user = Ok email)
         listed emails
    /\ List.length emails = List.length listed
    /\ relation "participants" sample_pr_entity
       = Ok (JArr (author_email :: emails)).
Proof.
  apply (participants_are_author_then_listed two_repos sample_pr
           sample_pr_entity).
  reflexivity.
Defined.

Lemma dict_get_without_optional k d :
  String.eqb k "description" = false ->
  String.eqb k "reviewers" = false ->
  String.eqb k "participants" = false ->
  dict_get k (without_optional d) = dict_get k d.
Proof.
  intros H1 H2 H3. unfold without_optional.
  now rewrite !dict_get_remove_other.
Qed.

Lemma getitem_without_optional k d :
  String.eqb k "description" = false ->
  String.eqb k "reviewers" = false ->
  String.eqb k "participants" = false ->
  getitem (JObj (without_optional d)) k = getitem (JObj d) k.
Proof.
  intros. unfold getitem. now rewrite dict_get_without_optional.
Qed.

Lemma get_without_optional k d default :
  String.eqb k "description" = false ->
  String.eqb k "reviewers" = false ->
  String.eqb k "participants" = false ->
  get (JObj (without_optional d)) k default = get (JObj d) k default.
Proof.
  intros. unfold get. now rewrite dict_get_without_optional.
Qed.

Lemma get_optional_removed k d default :
  k = "description" \/ k = "reviewers" \/ k = "participants" ->
  get (JObj (without_optional d)) k default = Ok default.
Proof.
  unfold get, without_optional. intros [H|[H|H]]; subst k.
  - now rewrite dict_get_remove_same.
  - rewrite dict_get_remove_other by reflexivity.
    now rewrite dict_get_remove_same.
  - rewrite !dict_get_remove_other by reflexivity.
    now rewrite dict_get_remove_same.
Qed.

Lemma sink_accepts_first E i n blueprint entity :
  sink_accepts E i (S n) ->
  (exists status_code reply,
     upsert_reply E i blueprint entity = Response status_code (Some reply))
  /\ sink_accepts E (S i) n.
Proof.
  intros H. split.
  - destruct (H O blueprint entity) as (st & reply & Hr); [lia|].
    rewrite Nat.add_0_r in Hr. eauto.
  - intros k b e Hk. destruct (H (S k) b e) as (st & reply & Hr); [lia|].
    rewrite Nat.add_succ_r in Hr. eauto.
Qed.

Lemma add_entity_to_port_accepted E blueprint entity w status_code reply :
  upsert_reply E (List.length (upserts w)) blueprint entity
    = Response status_code (Some reply) ->
  add_entity_to_port E blueprint entity w
  = (Ok tt, log_upsert blueprint entity w).
Proof. intros H. unfold add_entity_to_port. now rewrite H. Qed.

Lemma process_pullrequests_abort E : forall pre entities bad post e w,
  Forall2 (fun pr entity => pullrequest_entity E pr = Ok entity) pre entities ->
  sink_accepts E (List.length (upserts w)) (List.length pre) ->
  pullrequest_entity E bad = Raise e ->
  exists w',
    process_pullrequests E (pre ++ bad :: post) w = (Raise e, w')
    /\ upserts w'
       = upserts w
         ++ map (fun entity => ("bitbucketPullrequest", entity)) entities.
Proof.
  induction pre as [|pr pre IH]; intros entities bad post e w Hp Hsink Hb;
    inversion Hp as [|? en ? ens Hpr Hp']; subst; simpl.
  - rewrite Hb. exists w. now rewrite app_nil_r.
  - rewrite Hpr.
    apply (sink_accepts_first E _ _ "bitbucketPullrequest" en) in Hsink
      as [(st & reply & Hr) Hsink].
    rewrite (add_entity_to_port_accepted _ _ _ _ _ _ Hr).
    destruct (IH ens bad post e (log_upsert "bitbucketPullrequest" en w)
                Hp') as (w' & Hrun & Hup); [|exact Hb|].
    + simpl. rewrite length_app. simpl.
      now replace (List.length (upserts w) + 1)%nat
        with (S (List.length (upserts w))) by lia.
    + exists w'. split; [exact Hrun|]. rewrite Hup. simpl.
      now rewrite <- app_assoc.
Qed.

(** The sink's own failures are not caught either: when the sink cannot be
    reached, or answers with something that is not JSON, the upsert of a
    well-formed record ends the batch. *)
Lemma sink_failure_aborts_batch E pr entity rest w :
  pullrequest_entity E pr = Ok entity ->
  (upsert_reply E (List.length (upserts w)) "bitbucketPullrequest" entity
     = NoResponse
   \/ exists status_code,
        upsert_reply E (List.length (upserts w)) "bitbucketPullrequest" entity
        = Response status_code None) ->
  exists e,
    process_pullrequest_entities E (JArr (pr :: rest)) w
    = (Raise e, log_upsert "bitbucketPullrequest" entity w)
    /\ (e = ConnectionError \/ e = JSONDecodeError).
Proof.
  intros Hpr Hsink. unfold process_pullrequest_entities. cbn [iter].
  cbn [process_pullrequests]. rewrite Hpr. unfold add_entity_to_port.
  destruct Hsink as [Hr|[st Hr]]; rewrite Hr; eauto.
Qed.

(** C5 (amended). In a batch of pull requests, the first record whose mapping
    fails (a record without [id] fails with a [KeyError]) ends the processing
    of the batch with that error: the records before it, which the sink
    accepted, have been sent to the sink; the records after it are not
    processed.  A record that lacks only the optional fields [description],
    [reviewers] and [participants] maps successfully, to an entity without
    description, with no reviewers, and whose participants are the email
    address of the record's author alone. *)
Theorem failed_record_aborts_batch_optional_fields_tolerated E :
  (forall pre entities bad post e w,
     Forall2 (fun pr entity => pullrequest_entity E pr = Ok entity)
       pre entities ->
     sink_accepts E (List.length (upserts w)) (List.length pre) ->
     pullrequest_entity E bad = Raise e ->
     exists w',
       process_pullrequest_entities E (JArr (pre ++ bad :: post)) w
         = (Raise e, w')
       /\ upserts w'
          = upserts w
            ++ map (fun entity => ("bitbucketPullrequest", entity)) entities)
  /\ (forall fields,
        dict_get "id" fields = None ->
        pullrequest_entity E (JObj fields) = Raise (KeyError (JStr "id")))
  /\ (forall fields entity,
        pullrequest_entity E (JObj fields) = Ok entity ->
        exists entity' author_email,
          pullrequest_entity E (JObj (without_optional fields)) = Ok entity'
          /\ (author <- getitem (JObj fields) "author" ;;
              user_field "emailAddress" author) = Ok author_email
          /\ property "description" entity' = Ok JNull
          /\ property "reviewers" entity' = Ok (JArr [])
          /\ relation "participants" entity' = Ok (JArr [author_email])).
Proof.
  split; [|split].
  - intros pre entities bad post e w Hp Hsink Hb.
    unfold process_pullrequest_entities.
    cbn [iter]. now apply process_pullrequests_abort.
  - intros fields Hid. unfold pullrequest_entity, getitem at 1. now rewrite Hid.
  - intros fields entity H. unfold pullrequest_entity in H |- *.
    rewrite !getitem_without_optional by reflexivity.
    rewrite (get_without_optional "author") by reflexivity.
    rewrite !get_optional_removed by tauto.
    assert (Hauthor : forall a,
              getitem (JObj fields) "author" = Ok a ->
              get (JObj fields) "author" JNull = Ok a).
    { intros a. unfold getitem, get.
      destruct (dict_get "author" fields); [auto|discriminate]. }
    cbn [bind iter mapM].
    destruct (getitem (JObj fields) "id"); [cbn [bind] in H |- *|discriminate].
    destruct (getitem (JObj fields) "title");
      [cbn [bind] in H |- *|discriminate].
    destruct (getitem (JObj fields) "createdDate");
      [cbn [bind] in H |- *|discriminate].
    destruct (convert_to_datetime _); [cbn [bind] in H |- *|discriminate].
    destruct (getitem (JObj fields) "updatedDate");
      [cbn [bind] in H |- *|discriminate].
    destruct (convert_to_datetime _); [cbn [bind] in H |- *|discriminate].
    destruct (getitem (JObj fields) "fromRef");
      [cbn [bind] in H |- *|discriminate].
    destruct (getitem _ "latestCommit"); [cbn [bind] in H |- *|discriminate].
    destruct (get (JObj fields) "description" JNull);
      [cbn [bind] in H|discriminate].
    destruct (getitem (JObj fields) "state");
      [cbn [bind] in H |- *|discriminate].
    destruct (getitem (JObj fields) "author") as [author|] eqn:Ha;
      [cbn [bind] in H |- *|discriminate].
    rewrite (Hauthor author eq_refl) in H |- *.
    cbn [bind iter mapM] in H |- *.
    repeat match type of H with
           | bind ?r _ = Ok _ =>
               destruct r; [cbn [bind] in H; cbn [bind iter mapM]|discriminate]
           end.
    eexists _, _. split; [reflexivity|]. repeat split.
Qed.

Lemma failed_record_aborts_batch_optional_fields_tolerated_witness :
  (exists w',
     process_pullrequest_entities two_repos
       (JArr [sample_pr; JObj (dict_remove "id" sample_pr_fields); sample_pr])
       (initial_world 0)
     = (Raise (KeyError (JStr "id")), w')
     /\ upserts w' = [("bitbucketPullrequest", sample_pr_entity)])
  /\ (exists entity' author_email,
        pullrequest_entity two_repos (JObj (without_optional sample_pr_fields))
        = Ok entity'
        /\ (author <- getitem (JObj sample_pr_fields) "author" ;;
            user_field "emailAddress" author) = Ok author_email
        /\ property "description" entity' = Ok JNull
        /\ property "reviewers" entity' = Ok (JArr [])
        /\ relation "participants" entity' = Ok (JArr [author_email])).
Proof.
  destruct (failed_record_aborts_batch_optional_fields_tolerated two_repos)
    as (Habort & Hid & Hopt).
  split.
  - apply (Habort [sample_pr] [sample_pr_entity]
             (JObj (dict_remove "id" sample_pr_fields)) [sample_pr]
             (KeyError (JStr "id")) (initial_world 0)).
    + repeat constructor.
    + intros k blueprint entity Hk. eexists _, _. reflexivity.
    + apply Hid. reflexivity.
  - apply (Hopt sample_pr_fields sample_pr_entity). reflexivity.
Defined.

(** C5, as stated, fails: a record without [id] ahead of a well-formed record
    ends the batch, and the well-formed record is never sent to the sink. *)
Lemma record_without_id_aborts_the_batch :
  process_pullrequest_entities two_repos
    (JArr [JObj (dict_remove "id" sample_pr_fields); sample_pr])
    (initial_world 0)
  = (Raise (KeyError (JStr "id")), initial_world 0)
  /\ pullrequest_entity two_repos sample_pr = Ok sample_pr_entity
  /\ upserts (initial_world 0) = [].
Proof. repeat split. Qed.
